(** * go-scp-tui: the SCP client of [scp/client.go], embedded in Rocq

    The client drives the SCP wire protocol over the standard streams of a
    remote command.  This development embeds the transfer entry points
    ([Copy], [CopyPassThru], [CopyFile], [CopyFilePassThru],
    [CopyFromRemotePassThru], [CopyFromRemoteProgressPassThru],
    [CopyFromRemotePreserveProgressPassThru]), the harness [wait] and the
    progress decorator [progressWriter], and states the properties of the
    specification over them.

    Conventions.
    - Byte streams and protocol lines are [string]s (a Go string is a byte
      sequence; one [ascii] is one byte).
    - An [io.Reader] is the bytes it will still deliver and the error that
      ends it; an [io.Writer] is the room it has left before it fails.
    - A goroutine that talks to the session is a computation in a small
      state-and-error monad over the session streams and an event trace.
    - The select of [wait] consumes a timeline of signals in arrival order;
      the timeline also says when each goroutine sent on [errCh].
    - The response codec ([ParseResponse], [IsFailure], ...) lives in
      [scp/protocol.go]; the engine takes it as a [Codec] record and
      [SpecCodec] gives the instance described by the specification. *)

From Stdlib Require Import ZArith List String Ascii Bool Lia.
From Stdlib Require Import Numbers.DecimalString Numbers.DecimalZ.
Import ListNotations.

Local Open Scope string_scope.
Local Open Scope Z_scope.

(** ** Errors *)

(** The error values that travel through the client. [Error] is the Go
    [Error()] method: the message a caller sees. *)
Inductive error : Type :=
| ErrNew (msg : string)                  (* errors.New(msg) *)
| ErrWrap (prefix : string) (e : error)  (* fmt.Errorf(prefix + ": %w", e) *)
| ErrCanceled                            (* context.Canceled *)
| ErrDeadlineExceeded                    (* context.DeadlineExceeded *)
| ErrEOF                                 (* io.EOF *)
| ErrTransport (what : string)           (* a failed stream read or write *)
| ErrFormat (what : string)              (* an unparseable control line *)
| ErrProcess (status : Z).               (* the remote command failed *)

Fixpoint Error (e : error) : string :=
  match e with
  | ErrNew msg => msg
  | ErrWrap prefix e' => prefix ++ ": " ++ Error e'
  | ErrCanceled => "context canceled"
  | ErrDeadlineExceeded => "context deadline exceeded"
  | ErrEOF => "EOF"
  | ErrTransport what => what
  | ErrFormat what => what
  | ErrProcess _ => "Process exited with status"
  end.

(** [contains s m]: [m] occurs in [s] (Go's [strings.Contains]). *)
Definition contains (s m : string) : Prop :=
  exists pre post, s = pre ++ m ++ post.

(** A fallible result, Go's [(value, error)] pair. *)
Inductive result (A : Type) : Type :=
| Ok (a : A)
| Err (e : error).
Arguments Ok {A} a.
Arguments Err {A} e.

(** ** Bytes and lines *)

Definition NUL : ascii := "000"%char.
Definition LF : ascii := "010"%char.
Definition SP : ascii := " "%char.
Definition SLASH : ascii := "/"%char.

Definition nul : string := String NUL "".
Definition newline : string := String LF "".

Fixpoint has_char (c : ascii) (s : string) : bool :=
  match s with
  | EmptyString => false
  | String a s' => Ascii.eqb a c || has_char c s'
  end.

Fixpoint take (n : nat) (s : string) : string :=
  match n, s with
  | O, _ => ""
  | S _, EmptyString => ""
  | S k, String a s' => String a (take k s')
  end.

Fixpoint drop (n : nat) (s : string) : string :=
  match n, s with
  | O, _ => s
  | S _, EmptyString => ""
  | S k, String _ s' => drop k s'
  end.

(** Go's [strings.Split(s, sep)] for a one-byte separator. *)
Fixpoint split_on (sep : ascii) (s : string) : list string :=
  match s with
  | EmptyString => [""]
  | String a s' =>
      if Ascii.eqb a sep then "" :: split_on sep s'
      else match split_on sep s' with
           | h :: t => String a h :: t
           | [] => [String a ""]
           end
  end.

(** Reads up to and including the first [LF]: the line without its [LF] and
    the rest, or [None] when the stream ends first (Go's
    [bufio.Reader.ReadString] reporting [io.EOF]). *)
Fixpoint read_line (s : string) : option (string * string) :=
  match s with
  | EmptyString => None
  | String a s' =>
      if Ascii.eqb a LF then Some ("", s')
      else match read_line s' with
           | Some (l, rest) => Some (String a l, rest)
           | None => None
           end
  end.

(** Go prints an [int64] operand in decimal, with a leading minus sign when
    negative. *)
Definition format_int (z : Z) : string :=
  NilZero.string_of_int (Z.to_int z).

(** A decimal integer with an optional minus sign. *)
Definition parse_int (s : string) : option Z :=
  option_map Z.of_int (NilZero.int_of_string s).

Definition is_octal_digit (c : ascii) : bool :=
  let n := nat_of_ascii c in (48 <=? n)%nat && (n <=? 55)%nat.

Definition octal_digit_value (c : ascii) : Z :=
  Z.of_nat (nat_of_ascii c) - 48.

(** The number an octal digit string denotes, most significant digit first. *)
Definition octal_value (s : string) : Z :=
  fold_left (fun acc c => 8 * acc + octal_digit_value c)
            (list_ascii_of_string s) 0.

Definition all_octal (s : string) : bool :=
  forallb is_octal_digit (list_ascii_of_string s).

Definition parse_octal (s : string) : option Z :=
  match s with
  | EmptyString => None
  | _ => if all_octal s then Some (octal_value s) else None
  end.

(** Go's [path.Base]: the last element of a slash-separated path, trailing
    slashes removed; ["."] for the empty path and ["/"] for a path of
    slashes only. *)
Fixpoint strip_slashes (l : list ascii) : list ascii :=
  match l with
  | c :: l' => if Ascii.eqb c SLASH then strip_slashes l' else l
  | [] => []
  end.

Fixpoint until_slash (l : list ascii) : list ascii :=
  match l with
  | c :: l' => if Ascii.eqb c SLASH then [] else c :: until_slash l'
  | [] => []
  end.

Definition Base (path : string) : string :=
  match path with
  | EmptyString => "."
  | _ =>
      match until_slash (strip_slashes (rev (list_ascii_of_string path))) with
      | [] => "/"
      | e => string_of_list_ascii (rev e)
      end
  end.

(** ** Streams *)

(** An [io.Reader]: the bytes it still delivers, then [io.EOF] when
    [r_err] is [None], or the given error. *)
Record Reader : Type := mkReader {
  r_data : string;
  r_err : option error
}.

Definition reader_end (r : Reader) : error :=
  match r_err r with
  | Some e => e
  | None => ErrEOF
  end.

(** [bytes.NewReader(b)]. *)
Definition NewReader (b : string) : Reader := mkReader b None.

(** An [io.Writer]: it accepts [w_room] more bytes ([None]: any number) and
    then fails every write with [w_fail]. *)
Record Writer : Type := mkWriter {
  w_room : option nat;
  w_fail : error
}.

(** One [Write(s)]: the bytes accepted, the writer afterwards and the error
    reported. *)
Definition write (w : Writer) (s : string) : string * Writer * option error :=
  match w_room w with
  | None => (s, w, None)
  | Some k =>
      if (String.length s <=? k)%nat
      then (s, mkWriter (Some (k - String.length s)%nat) (w_fail w), None)
      else (take k s, mkWriter (Some O) (w_fail w), Some (w_fail w))
  end.

(** [io.ReadAll(r)]. *)
Definition ReadAll (r : Reader) : result string :=
  match r_err r with
  | Some e => Err e
  | None => Ok (r_data r)
  end.

(** A caller's [PassThru]: wraps the reader, knowing the total. *)
Definition PassThru : Type := Reader -> Z -> Reader.

Definition apply_passThru (passThru : option PassThru) (r : Reader) (total : Z)
  : Reader :=
  match passThru with
  | Some f => f r total
  | None => r
  end.

(** ** Data model of the protocol *)

(** Modelled from the spec: the [Response] struct of [scp/protocol.go] is
    missing from the sources; a decoded control message is its leading
    status byte and its message text. *)
Record Response : Type := mkResponse {
  Type_ : ascii;
  Message : string
}.

(** Modelled from the spec: the [FileInfos] struct of [scp/protocol.go] is
    missing from the sources; permission bits, size in bytes, base name and
    the two times, which are absent until a timestamp line is merged. *)
Record FileInfos : Type := mkFileInfos {
  Permissions : Z;
  Size : Z;
  Filename : string;
  Mtime : option Z;
  Atime : option Z
}.

(** Modelled from the spec: the value [ParseFileTime] returns is missing
    from the sources; the modification and access times of a [T] line. *)
Record FileTimes : Type := mkFileTimes {
  t_mtime : Z;
  t_atime : Z
}.

(** The functions of [scp/protocol.go] the engine calls on a response. *)
Record Codec : Type := mkCodec {
  ParseResponse : Reader -> result (Response * Reader);
  IsFailure : Response -> bool;
  NoStandardProtocolType : Response -> bool;
  GetMessage : Response -> string;
  ParseFileInfos : Response -> result FileInfos;
  ParseFileTime : Response -> result FileTimes;
  Update : FileInfos -> FileTimes -> FileInfos
}.

(** ** The effects of a transfer *)

(** The remote command line [Start] receives: binary, flags and the
    operand that [%q] quotes. *)
Record command : Type := mkCommand {
  cmd_binary : string;
  cmd_flags : string;
  cmd_path : string
}.

Inductive event : Type :=
| EvReadAll (n : nat)            (* io.ReadAll drained the source: n bytes *)
| EvNewSession                   (* sshClient.NewSession() succeeded *)
| EvStart (c : command)          (* session.Start(c) succeeded *)
| EvStdin (bytes : string)       (* bytes the session's input accepted *)
| EvStdinClose                   (* the input pipe was closed *)
| EvSink (bytes : string)        (* bytes the destination writer accepted *)
| EvProgress (num den : Z)       (* onProgress(num / den) *)
| EvProgressErr (e : error)      (* p.Send(progressErrMsg{e}) *)
| EvSessionClose.                (* the deferred session.Close() *)

(** What the session streams hold inside the protocol goroutine: the read
    handle on the session's output, the write handle on its input, and the
    events so far, oldest first. *)
Record Pipes : Type := mkPipes {
  p_out : Reader;
  p_in : Writer;
  p_trace : list event
}.

(** How a goroutine leaves early: the error it sends on [errCh] and the value
    its variable [err] holds at that moment. *)
Record abort : Type := mkAbort {
  sent : error;
  held : option error
}.

Definition M (A : Type) : Type := Pipes -> Pipes * (abort + A).

Definition ret {A : Type} (a : A) : M A := fun p => (p, inr a).

Definition bind {A B : Type} (c : M A) (k : A -> M B) : M B :=
  fun p => match c p with
           | (p', inl ab) => (p', inl ab)
           | (p', inr a) => k a p'
           end.

(** [err = e; errCh <- err; return]. *)
Definition fail {A : Type} (e : error) : M A :=
  fun p => (p, inl (mkAbort e (Some e))).

(** [errCh <- errors.New(msg); return], with [err] still nil. *)
Definition fail_message {A : Type} (msg : string) : M A :=
  fun p => (p, inl (mkAbort (ErrNew msg) None)).

Definition lift {A : Type} (r : result A) : M A :=
  match r with
  | Ok a => ret a
  | Err e => fail e
  end.

Definition check (oe : option error) : M unit :=
  match oe with
  | Some e => fail e
  | None => ret tt
  end.

Definition emit (e : event) : M unit :=
  fun p => (mkPipes (p_out p) (p_in p) (p_trace p ++ [e]), inr tt).

Declare Scope scp_scope.
Delimit Scope scp_scope with scp.
Notation "x <- c ;; k" := (bind c (fun x => k))
  (at level 61, c at next level, right associativity) : scp_scope.
Notation "c ;;; k" := (bind c (fun _ => k))
  (at level 61, right associativity) : scp_scope.
Local Open Scope scp_scope.

(** A write on the session's input: the accepted bytes are logged, a short
    write is the writer's error. *)
Definition write_in (s : string) : M unit :=
  fun p =>
    let '(acc, w', oe) := write (p_in p) s in
    let p' := mkPipes (p_out p) w' (p_trace p ++ [EvStdin acc]) in
    match oe with
    | Some e => (p', inl (mkAbort e (Some e)))
    | None => (p', inr tt)
    end.

(** Modelled from the spec: [Ack] of [scp/protocol.go] is missing from the
    sources; it writes a single [0x00] byte. *)
Definition Ack : M unit := write_in nul.

(** [io.Copy(w, r)] onto the session's input: every byte the source
    delivers is written, until the source ends ([io.EOF] is success, any
    other end is returned) or a write fails. The copy is logged as one
    write. *)
Definition io_Copy (r : Reader) : M unit :=
  write_in (r_data r) ;;; check (r_err r).

(** Modelled from the spec: [CopyN] of [scp/protocol.go] is missing from
    the sources; it copies exactly [size] bytes from the reader to the
    destination, and a reader that ends before is an error. Here the reader
    is the handle [r] on the session's output. *)
Definition CopyN (w : Writer) (size : Z) : M Z :=
  fun p =>
    let n := Z.to_nat size in
    let r := p_out p in
    let '(acc, _, oe) := write w (take n (r_data r)) in
    let p' := mkPipes (mkReader (drop n (r_data r)) (r_err r)) (p_in p)
                      (p_trace p ++ [EvSink acc]) in
    match oe with
    | Some e => (p', inl (mkAbort e (Some e)))
    | None =>
        if (String.length (r_data r) <? n)%nat
        then (p', inl (mkAbort (reader_end r) (Some (reader_end r))))
        else (p', inr (Z.of_nat n))
    end.

(** [r = passThru(r, total)] when [passThru] is not nil. *)
Definition wrap_reader (passThru : option PassThru) (total : Z) : M unit :=
  fun p => (mkPipes (apply_passThru passThru (p_out p) total) (p_in p)
                    (p_trace p), inr tt).

(** ** The session and the client *)

(** One [ssh.Session] as the client sees it: its two pipes, and what
    [Start] and [Wait] answer. *)
Record Session : Type := mkSession {
  StdoutPipe : result Reader;
  StdinPipe : result Writer;
  Start_err : option error;
  Wait_err : option error;
  ReadSize : nat     (* a Read of the output delivers at most [S ReadSize] bytes *)
}.

Record Client : Type := mkClient {
  Timeout : Z;
  RemoteBinary : string;
  NewSession : result Session
}.

(** The [tea.Program] behind the global [p]: what [p.Run()] answers. *)
Record Program : Type := mkProgram {
  Run : option error
}.

(** ** The harness *)

Inductive unit_id : Type := Protocol | ExitWaiter.

Definition unit_eqb (u v : unit_id) : bool :=
  match u, v with
  | Protocol, Protocol => true
  | ExitWaiter, ExitWaiter => true
  | _, _ => false
  end.

(** What happens while a call is in [wait], in the order it happens: a
    supervised goroutine has sent its error, if it has one, on [errCh]; a
    supervised goroutine called [wg.Done()], which comes after its send, so
    that a [SigDone] with no [SigSent] before it stands for both; the
    caller's context was cancelled with [ctx.Err() = e]; the duration
    [Timeout] has elapsed since the call. *)
Inductive signal : Type :=
| SigDone (u : unit_id)
| SigCancel (e : error)
| SigTimer
| SigSent (u : unit_id).

(** The context handed to [wait]: whether [context.WithTimeout] armed the
    timer. The caller's own cancellation is the [SigCancel] signals. *)
Record Context : Type := mkContext {
  timer_armed : bool
}.

Definition caller_ctx : Context := mkContext false.
Definition WithTimeout (ctx : Context) : Context := mkContext true.

Inductive waited : Type :=
| WaitNil (order : list unit_id)   (* channel c was closed: wait returns nil *)
| WaitErr (e : error)              (* ctx.Done() fired: wait returns ctx.Err() *)
| WaitBlocked.                     (* neither ever happens *)

Definition pending_without (u : unit_id) (wg : list unit_id) : list unit_id :=
  filter (fun v => negb (unit_eqb u v)) wg.

(** The goroutine [u] has sent on [errCh]: it joins the send order unless
    it is there already. *)
Definition record_send (u : unit_id) (order : list unit_id) : list unit_id :=
  if existsb (unit_eqb u) order then order else (order ++ [u])%list.

(** [wait(wg, ctx)]: [wg] lists the goroutines that have not called
    [wg.Done()] yet and [order] those that have sent on [errCh], in the
    order of their sends, which is the order [errCh] holds their errors
    in. *)
Fixpoint wait_from (wg : list unit_id) (ctx : Context) (tl : list signal)
  (order : list unit_id) : waited :=
  match wg with
  | [] => WaitNil order
  | _ :: _ =>
      match tl with
      | [] => WaitBlocked
      | SigDone u :: tl' =>
          if existsb (unit_eqb u) wg
          then wait_from (pending_without u wg) ctx tl' (record_send u order)
          else wait_from wg ctx tl' order
      | SigSent u :: tl' =>
          if existsb (unit_eqb u) wg
          then wait_from wg ctx tl' (record_send u order)
          else wait_from wg ctx tl' order
      | SigCancel e :: _ => WaitErr e
      | SigTimer :: tl' =>
          if timer_armed ctx then WaitErr ErrDeadlineExceeded
          else wait_from wg ctx tl' order
      end
  end.

Definition wait (wg : list unit_id) (ctx : Context) (tl : list signal) : waited :=
  wait_from wg ctx tl [].

(** [if a.Timeout > 0 { ctx, cancel = context.WithTimeout(ctx, a.Timeout) }]. *)
Definition with_client_timeout (a : Client) (ctx : Context) : Context :=
  if 0 <? Timeout a then WithTimeout ctx else ctx.

(** [for err := range errCh { if err != nil { return err } }; return nil]. *)
Fixpoint first_error (ch : list (option error)) : option error :=
  match ch with
  | [] => None
  | Some e :: _ => Some e
  | None :: ch' => first_error ch'
  end.

(** How a call ends. *)
Inductive returned : Type :=
| Returns (e : option error)   (* the call returns [e] *)
| Blocks                       (* the call never returns *)
| Exits (code : Z).            (* os.Exit(code) ended the process *)

(** A call's end and the events of the session, those of the protocol
    goroutine taken to its end; the deferred [session.Close()] of the call
    comes last, and is not run when the process exits. *)
Record Outcome : Type := mkOutcome {
  result_of : returned;
  trace_of : list event
}.

(** How the protocol goroutine ends: the values it has sent on [errCh], or
    [os.Exit]. *)
Inductive unit_end : Type :=
| Sent (ch : list (option error))
| OsExit (code : Z).

(** ** The progress decorator *)

(** Go's [int] on a 64-bit target: arithmetic wraps to [-2^63 .. 2^63-1]. *)
Definition wrap_int (z : Z) : Z := (z + 2 ^ 63) mod 2 ^ 64 - 2 ^ 63.

(** [progressWriter]; [onProgress] records whether the callback is not
    nil. *)
Record progressWriter : Type := mkProgressWriter {
  total : Z;
  downloaded : Z;
  file : Writer;
  reader : Reader;
  onProgress : bool
}.

(** [pw.Write(p)]: the writer afterwards and the callback invocations, each
    the pair [(downloaded, total)] whose quotient [onProgress] receives.
    It returns [len(p), nil]. *)
Definition progressWriter_Write (pw : progressWriter) (p : string)
  : progressWriter * list (Z * Z) :=
  let d := wrap_int (downloaded pw + Z.of_nat (String.length p)) in
  let pw' := mkProgressWriter (total pw) d (file pw) (reader pw) (onProgress pw) in
  (pw', if (0 <? total pw) && onProgress pw then [(d, total pw)] else []).

(** A run of [Write] calls, one per chunk. *)
Fixpoint progressWriter_Writes (pw : progressWriter) (chunks : list string)
  : progressWriter * list (Z * Z) :=
  match chunks with
  | [] => (pw, [])
  | c :: cs =>
      let '(pw1, calls1) := progressWriter_Write pw c in
      let '(pw2, calls2) := progressWriter_Writes pw1 cs in
      (pw2, (calls1 ++ calls2)%list)
  end.

(** The running byte count after each of the [Write] calls. *)
Fixpoint running_counts (pw : progressWriter) (chunks : list string) : list Z :=
  match chunks with
  | [] => []
  | c :: cs =>
      let pw1 := fst (progressWriter_Write pw c) in
      downloaded pw1 :: running_counts pw1 cs
  end.

(** The loop of [CopyN(pw.file, io.TeeReader(pw.reader, pw), pw.total)]:
    while bytes are [left], one Read of at most [S k] bytes, which the tee
    hands to [pw.Write] before the copy writes it to [pw.file]. *)
Fixpoint tee_copy (fuel k : nat) (pw : progressWriter) (left : nat)
  : list event * option error :=
  match fuel with
  | O => ([], None)
  | S fuel' =>
      match left with
      | O => ([], None)
      | S _ =>
          match r_data (reader pw) with
          | EmptyString => ([], Some (reader_end (reader pw)))
          | data =>
              let c := take (Nat.min (S k) left) data in
              let '(pw1, calls) := progressWriter_Write pw c in
              let '(acc, file', oe) := write (file pw1) c in
              let pw2 :=
                mkProgressWriter (total pw1) (downloaded pw1) file'
                  (mkReader (drop (String.length c) data) (r_err (reader pw1)))
                  (onProgress pw1) in
              let evs := (map (fun r => EvProgress (fst r) (snd r)) calls
                          ++ [EvSink acc])%list in
              match oe with
              | Some e => (evs, Some e)
              | None =>
                  let '(evs', r) :=
                    tee_copy fuel' k pw2 (left - String.length c) in
                  ((evs ++ evs')%list, r)
              end
          end
      end
  end.

(** [pw.Start()]: the copy, then [p.Send(progressErrMsg{err})] when it
    failed; it returns the copy's error. *)
Definition progressWriter_Start (k : nat) (pw : progressWriter)
  : list event * option error :=
  let n := Z.to_nat (total pw) in
  let '(evs, r) := tee_copy n k pw n in
  match r with
  | Some e => ((evs ++ [EvProgressErr e])%list, Some e)
  | None => (evs, None)
  end.

(** How two goroutines' events interleave: [true] lets the first list move,
    [false] the second; when the schedule ends the first list goes first. *)
Fixpoint merge (sched : list bool) (xs ys : list event) : list event :=
  match sched with
  | [] => (xs ++ ys)%list
  | true :: s =>
      match xs with
      | x :: xs' => x :: merge s xs' ys
      | [] => ys
      end
  | false :: s =>
      match ys with
      | y :: ys' => y :: merge s xs ys'
      | [] => xs
      end
  end.

(** ** The transfer engine *)

Definition session_error_upload : string :=
  "Error creating ssh session in copy to remote".
Definition session_error_download : string :=
  "Error creating ssh session in copy from remote".
Definition read_all_error : string :=
  "failed to read all data from reader".

(** [fmt.Fprintln(w, "C"+permissions, size, filename)]: the operands
    separated by spaces, then a newline. *)
Definition header (permissions : string) (size : Z) (filename : string)
  : string :=
  "C" ++ permissions ++ " " ++ format_int size ++ " " ++ filename ++ newline.

(** [session.Start(cmd)]. *)
Definition start (session : Session) (c : command) : M unit :=
  match Start_err session with
  | Some e => fail e
  | None => emit (EvStart c)
  end.

Section Engine.

Context (cd : Codec).

(** [ParseResponse(r)] on the session's output. *)
Definition parse_response : M Response :=
  fun p =>
    match ParseResponse cd (p_out p) with
    | Err e => (p, inl (mkAbort e (Some e)))
    | Ok (res, r') => (mkPipes r' (p_in p) (p_trace p), inr res)
    end.

(** [checkResponse(stdout)]. *)
Definition checkResponse : M unit :=
  response <- parse_response ;;
  if IsFailure cd response then fail (ErrNew (GetMessage cd response))
  else ret tt.

(** The body of the first goroutine of [CopyPassThru]. *)
Definition upload_protocol (r : Reader) (permissions : string) (size : Z)
  (filename : string) : M unit :=
  write_in (header permissions size filename) ;;;
  checkResponse ;;;
  io_Copy r ;;;
  write_in nul ;;;
  checkResponse.

(** The first goroutine of [CopyPassThru] to its end: the deferred
    [w.Close()], and what it has sent on [errCh]. *)
Definition upload_unit (r : Reader) (permissions : string) (size : Z)
  (filename : string) (p : Pipes) : list event * list (option error) :=
  let '(p', res) := upload_protocol r permissions size filename p in
  ((p_trace p' ++ [EvStdinClose])%list,
   match res with
   | inl ab => [Some (sent ab)]
   | inr _ => []
   end).

(** The second goroutine of [CopyPassThru]: [session.Wait()]. *)
Definition exit_unit (session : Session) : list (option error) :=
  match Wait_err session with
  | Some e => [Some e]
  | None => []
  end.

(** [CopyPassThru]. [tl] is what happens while the call is in [wait]; the
    loop over [errCh] that follows receives the errors in the order the
    two goroutines sent them. *)
Definition CopyPassThru (a : Client) (tl : list signal) (r : Reader)
  (remotePath permissions : string) (size : Z) (passThru : option PassThru)
  : Outcome :=
  match NewSession a with
  | Err e => mkOutcome (Returns (Some (ErrWrap session_error_upload e))) []
  | Ok session =>
    match StdoutPipe session with
    | Err e => mkOutcome (Returns (Some e)) [EvNewSession; EvSessionClose]
    | Ok stdout =>
      match StdinPipe session with
      | Err e => mkOutcome (Returns (Some e)) [EvNewSession; EvSessionClose]
      | Ok w =>
        let r := apply_passThru passThru r size in
        let filename := Base remotePath in
        match Start_err session with
        | Some e =>
            mkOutcome (Returns (Some e))
                      [EvNewSession; EvStdinClose; EvSessionClose]
        | None =>
          let cmd := mkCommand (RemoteBinary a) "-qt" remotePath in
          let '(tr, sends) :=
            upload_unit r permissions size filename
              (mkPipes stdout w [EvNewSession; EvStart cmd]) in
          let errCh u :=
            match u with
            | Protocol => sends
            | ExitWaiter => exit_unit session
            end in
          let ctx := with_client_timeout a caller_ctx in
          let tr := (tr ++ [EvSessionClose])%list in
          match wait [Protocol; ExitWaiter] ctx tl with
          | WaitErr e => mkOutcome (Returns (Some e)) tr
          | WaitBlocked => mkOutcome Blocks tr
          | WaitNil order =>
              mkOutcome (Returns (first_error (flat_map errCh order))) tr
          end
        end
      end
    end
  end.

(** [Copy]. *)
Definition Copy (a : Client) (tl : list signal) (r : Reader)
  (remotePath permissions : string) (size : Z) : Outcome :=
  CopyPassThru a tl r remotePath permissions size None.

(** [CopyFilePassThru]: the source is read to its end before anything
    else. *)
Definition CopyFilePassThru (a : Client) (tl : list signal)
  (fileReader : Reader) (remotePath permissions : string)
  (passThru : option PassThru) : Outcome :=
  let seen := EvReadAll (String.length (r_data fileReader)) in
  match ReadAll fileReader with
  | Err e => mkOutcome (Returns (Some (ErrWrap read_all_error e))) [seen]
  | Ok contentsBytes =>
      let bytesReader := NewReader contentsBytes in
      let o := CopyPassThru a tl bytesReader remotePath permissions
                 (Z.of_nat (String.length contentsBytes)) passThru in
      mkOutcome (result_of o) (seen :: trace_of o)
  end.

(** [CopyFile]. *)
Definition CopyFile (a : Client) (tl : list signal) (fileReader : Reader)
  (remotePath permissions : string) : Outcome :=
  CopyFilePassThru a tl fileReader remotePath permissions None.

(** The download goroutines up to the body: [Start], the first [Ack], the
    header response and its [Ack], then the [passThru] wrapping. *)
Definition download_handshake (session : Session) (cmd : command)
  (passThru : option PassThru) : M FileInfos :=
  start session cmd ;;;
  Ack ;;;
  res <- parse_response ;;
  (if IsFailure cd res then fail_message (GetMessage cd res) else ret tt) ;;;
  infos <- lift (ParseFileInfos cd res) ;;
  Ack ;;;
  wrap_reader passThru (Size infos) ;;;
  ret infos.

(** The body of the goroutine of [CopyFromRemotePassThru]. *)
Definition download_protocol (session : Session) (cmd : command)
  (w : Writer) (passThru : option PassThru) : M unit :=
  infos <- download_handshake session cmd passThru ;;
  _ <- CopyN w (Size infos) ;;
  Ack ;;;
  check (Wait_err session).

(** What a download goroutine has sent on [errCh] when it returns: on an
    early return the error sent and then, from the deferred function, the
    variable [err]; otherwise only the latter, which is nil. *)
Definition download_sends {A : Type} (res : abort + A) : list (option error) :=
  match res with
  | inl ab => [Some (sent ab); held ab]
  | inr _ => [None]
  end.

(** The goroutine of [CopyFromRemotePassThru] to its end. *)
Definition download_unit (session : Session) (cmd : command) (w : Writer)
  (passThru : option PassThru) : list event * unit_end :=
  match StdoutPipe session with
  | Err e => ([], Sent [Some e; Some e])
  | Ok r =>
    match StdinPipe session with
    | Err e => ([], Sent [Some e; Some e])
    | Ok inp =>
        let '(p, res) :=
          download_protocol session cmd w passThru (mkPipes r inp []) in
        ((p_trace p ++ [EvStdinClose])%list, Sent (download_sends res))
    end
  end.

(** The timeline as a goroutine [u] that ends in [os.Exit] leaves it:
    [os.Exit] runs no deferred call, so that the goroutine neither sends on
    [errCh] nor calls [wg.Done()]. *)
Definition never_done (u : unit_id) (tl : list signal) : list signal :=
  filter (fun s =>
            match s with
            | SigDone v | SigSent v => negb (unit_eqb u v)
            | _ => true
            end) tl.

(** The end of the three download calls: [wait], then
    [finalErr := <-errCh]. When the goroutine ends in [os.Exit], [wait]
    can return only because the context fired: the call then returns the
    context's error before the goroutine gets to [os.Exit]; otherwise the
    process ends while [wait] is blocked, and the deferred
    [session.Close()] is not run. *)
Definition download_call (a : Client) (tl : list signal)
  (unit : Session -> list event * unit_end) : Outcome :=
  match NewSession a with
  | Err e => mkOutcome (Returns (Some (ErrWrap session_error_download e))) []
  | Ok session =>
      let '(tr, fin) := unit session in
      let ctx := with_client_timeout a caller_ctx in
      let closed := (EvNewSession :: tr ++ [EvSessionClose])%list in
      match fin with
      | OsExit code =>
          match wait [Protocol] ctx (never_done Protocol tl) with
          | WaitErr e => mkOutcome (Returns (Some e)) closed
          | _ => mkOutcome (Exits code) (EvNewSession :: tr)
          end
      | Sent ch =>
          match wait [Protocol] ctx tl with
          | WaitErr e => mkOutcome (Returns (Some e)) closed
          | WaitBlocked => mkOutcome Blocks closed
          | WaitNil _ =>
              match ch with
              | [] => mkOutcome Blocks closed
              | finalErr :: _ => mkOutcome (Returns finalErr) closed
              end
          end
      end
  end.

(** [CopyFromRemotePassThru]. *)
Definition CopyFromRemotePassThru (a : Client) (tl : list signal)
  (w : Writer) (remotePath : string) (passThru : option PassThru) : Outcome :=
  download_call a tl
    (fun session =>
       download_unit session (mkCommand (RemoteBinary a) "-f" remotePath)
                     w passThru).

(** The metadata-preserving handshake: the timestamp response and its
    [Ack] come before the header response; [infos.Update(timeInfo)]
    follows the header's [Ack]. *)
Definition preserve_handshake (session : Session) (cmd : command)
  (passThru : option PassThru) : M FileInfos :=
  start session cmd ;;;
  Ack ;;;
  res <- parse_response ;;
  (if IsFailure cd res && NoStandardProtocolType cd res
   then fail_message (GetMessage cd res) else ret tt) ;;;
  timeInfo <- lift (ParseFileTime cd res) ;;
  Ack ;;;
  res <- parse_response ;;
  (if IsFailure cd res && NoStandardProtocolType cd res
   then fail_message (GetMessage cd res) else ret tt) ;;;
  infos <- lift (ParseFileInfos cd res) ;;
  Ack ;;;
  let infos := Update cd infos timeInfo in
  wrap_reader passThru (Size infos) ;;;
  ret infos.

(** What the goroutine of a progress download does after [go pw.Start()]:
    the test of [err], which the last [Ack] left nil, the final [Ack],
    [p.Run()] with [os.Exit(1)] on its error, and [session.Wait()]. The
    result is [true] when the process exits. *)
Definition progress_tail (session : Session) (prog : Program) : M bool :=
  Ack ;;;
  match Run prog with
  | Some _ => ret true
  | None => check (Wait_err session) ;;; ret false
  end.

(** The goroutine of a progress download to its end. [go pw.Start()]
    starts the copier, whose events interleave with the goroutine's own
    as [sched] says. *)
Definition progress_unit (handshake : M FileInfos) (session : Session)
  (prog : Program) (sched : list bool) (w : Writer)
  : list event * unit_end :=
  match StdoutPipe session with
  | Err e => ([], Sent [Some e; Some e])
  | Ok r =>
    match StdinPipe session with
    | Err e => ([], Sent [Some e; Some e])
    | Ok inp =>
        match handshake (mkPipes r inp []) with
        | (p, inl ab) =>
            ((p_trace p ++ [EvStdinClose])%list,
             Sent (download_sends (@inl abort unit ab)))
        | (p, inr infos) =>
            let pw := mkProgressWriter (Size infos) 0 w (p_out p) true in
            let copier := fst (progressWriter_Start (ReadSize session) pw) in
            let '(p', res) :=
              progress_tail session prog (mkPipes (p_out p) (p_in p) []) in
            match res with
            | inr true =>
                ((p_trace p ++ merge sched (p_trace p') copier)%list,
                 OsExit 1)
            | _ =>
                ((p_trace p
                  ++ merge sched (p_trace p' ++ [EvStdinClose]) copier)%list,
                 Sent (download_sends res))
            end
        end
    end
  end.

(** [CopyFromRemoteProgressPassThru]. *)
Definition CopyFromRemoteProgressPassThru (a : Client) (tl : list signal)
  (prog : Program) (sched : list bool) (w : Writer) (remotePath : string)
  (passThru : option PassThru) : Outcome :=
  download_call a tl
    (fun session =>
       progress_unit
         (download_handshake session
            (mkCommand (RemoteBinary a) "-f" remotePath) passThru)
         session prog sched w).

(** [CopyFromRemotePreserveProgressPassThru]. *)
Definition CopyFromRemotePreserveProgressPassThru (a : Client)
  (tl : list signal) (prog : Program) (sched : list bool) (w : Writer)
  (remotePath : string) (passThru : option PassThru) : Outcome :=
  download_call a tl
    (fun session =>
       progress_unit
         (preserve_handshake session
            (mkCommand (RemoteBinary a) "-f -p" remotePath) passThru)
         session prog sched w).

End Engine.

(** ** The codec of the specification *)

Module SpecCodec.

(** Modelled from the spec: the status a response's leading byte stands
    for; [scp/protocol.go] is missing from the sources. [0x00] is Success,
    [0x01] Warning, [0x02] Failure, and any other byte marks a line that
    is not a standard protocol response. *)
Inductive status : Type := Success | Warning | Failure | Unrecognized.

Definition status_of (r : Response) : status :=
  match nat_of_ascii (Type_ r) with
  | 0%nat => Success
  | 1%nat => Warning
  | 2%nat => Failure
  | _ => Unrecognized
  end.

(** Modelled from the spec: [ParseResponse] is missing from the sources.
    It reads one control line: the single byte [0x00] is Success with an
    empty message; after any other leading byte the remainder up to the
    newline is the message. A stream that ends first is a read error. *)
Definition ParseResponse (r : Reader) : result (Response * Reader) :=
  match r_data r with
  | EmptyString => Err (reader_end r)
  | String b rest =>
      if Ascii.eqb b NUL
      then Ok (mkResponse b "", mkReader rest (r_err r))
      else match read_line rest with
           | Some (msg, rest') =>
               Ok (mkResponse b msg, mkReader rest' (r_err r))
           | None => Err (reader_end r)
           end
  end.

(** Modelled from the spec: [IsFailure] is missing from the sources. The
    status byte alone decides: [0x02] is the failure, fatal; a warning is
    not. *)
Definition IsFailure (r : Response) : bool :=
  match status_of r with
  | Failure => true
  | _ => false
  end.

(** Modelled from the spec: [NoStandardProtocolType] is missing from the
    sources. It is the marker of a line whose leading byte is none of
    [0x00], [0x01], [0x02]. *)
Definition NoStandardProtocolType (r : Response) : bool :=
  match status_of r with
  | Unrecognized => true
  | _ => false
  end.

(** Modelled from the spec: [GetMessage] is missing from the sources; the
    message text of the response. *)
Definition GetMessage (r : Response) : string := Message r.

(** Modelled from the spec: the file-info parser is missing from the
    sources. The grammar is [C<mode-octal> <size-decimal> <name>]; it
    fails when the mode is not an octal integer, when the size is not a
    non-negative decimal integer, when the name token is missing, and on
    a name that includes a slash. *)
Definition parseFileInfos (line : string) : result FileInfos :=
  match line with
  | String "C" body =>
      match split_on SP body with
      | [mode; size; name] =>
          match parse_octal mode, parse_int size with
          | Some m, Some n =>
              if n <? 0 then Err (ErrFormat "size is negative")
              else match name with
                   | EmptyString => Err (ErrFormat "name is missing")
                   | _ =>
                       if has_char SLASH name
                       then Err (ErrFormat "name includes a slash")
                       else Ok (mkFileInfos m n name None None)
                   end
          | None, _ => Err (ErrFormat "mode is not octal")
          | _, None => Err (ErrFormat "size is not decimal")
          end
      | _ => Err (ErrFormat "unable to parse message as file infos")
      end
  | _ => Err (ErrFormat "unable to parse message as file infos")
  end.

(** The line a response was read from: its leading byte, then its
    message. *)
Definition line_of (r : Response) : string := String (Type_ r) (Message r).

Definition ParseFileInfos (r : Response) : result FileInfos :=
  parseFileInfos (line_of r).

(** Modelled from the spec: the timestamp parser is missing from the
    sources. The grammar is [T<mtime> <unused> <atime> <unused>], four
    decimal integers; it fails on any field that is not an integer. *)
Definition parseFileTime (line : string) : result FileTimes :=
  match line with
  | String "T" body =>
      match split_on SP body with
      | [mtime; unused1; atime; unused2] =>
          match parse_int mtime, parse_int unused1,
                parse_int atime, parse_int unused2 with
          | Some m, Some _, Some a, Some _ => Ok (mkFileTimes m a)
          | _, _, _, _ => Err (ErrFormat "field is not an integer")
          end
      | _ => Err (ErrFormat "unable to parse message as file times")
      end
  | _ => Err (ErrFormat "unable to parse message as file times")
  end.

Definition ParseFileTime (r : Response) : result FileTimes :=
  parseFileTime (line_of r).

(** Modelled from the spec: [Update] is missing from the sources; it
    merges the two times of the timestamp line into the file-info
    value. *)
Definition Update (infos : FileInfos) (t : FileTimes) : FileInfos :=
  mkFileInfos (Permissions infos) (Size infos) (Filename infos)
              (Some (t_mtime t)) (Some (t_atime t)).

Definition codec : Codec :=
  mkCodec ParseResponse IsFailure NoStandardProtocolType GetMessage
          ParseFileInfos ParseFileTime Update.

End SpecCodec.

(** ** Observations *)

(** The writes the session's input accepted, in order. *)
Fixpoint stdin_writes (tr : list event) : list string :=
  match tr with
  | [] => []
  | EvStdin s :: t => s :: stdin_writes t
  | _ :: t => stdin_writes t
  end.

(** The bytes the destination writer accepted. *)
Fixpoint sink_bytes (tr : list event) : string :=
  match tr with
  | [] => ""
  | EvSink s :: t => s ++ sink_bytes t
  | _ :: t => sink_bytes t
  end.

(** The number of bytes the destination had accepted, [seen] included, when
    the [k]-th ack byte was written to the session's input ([k] counts from
    one); [None] when fewer acks were written. *)
Fixpoint delivered_before_ack (k : nat) (seen : nat) (tr : list event)
  : option nat :=
  match tr with
  | [] => None
  | EvStdin s :: t =>
      if String.eqb s nul
      then match k with
           | O => None
           | S O => Some seen
           | S k' => delivered_before_ack k' seen t
           end
      else delivered_before_ack k seen t
  | EvSink s :: t => delivered_before_ack k (seen + String.length s) t
  | _ :: t => delivered_before_ack k seen t
  end.

(** The writer takes all of [s]. *)
Definition accepts (w : Writer) (s : string) : bool :=
  match w_room w with
  | None => true
  | Some k => (String.length s <=? k)%nat
  end.

(** The combined context fires with [e] while [wait] is still blocked: after
    the signals [pre], during which some supervised goroutine is pending and
    nothing fired, comes the caller's cancellation or, when armed, the
    timer. *)
Definition cancelled_first (wg : list unit_id) (ctx : Context)
  (tl : list signal) (e : error) : Prop :=
  exists pre post,
    wait wg ctx pre = WaitBlocked /\
    (tl = (pre ++ SigCancel e :: post)%list \/
     (tl = (pre ++ SigTimer :: post)%list /\
      timer_armed ctx = true /\ e = ErrDeadlineExceeded)).

(** A permission string of the upload header: octal digits, at least one. *)
Definition valid_permissions (s : string) : bool :=
  negb (String.eqb s "") && all_octal s.

(** A name token of the header line: not empty, one token, a base name, on
    one line. *)
Definition valid_name (s : string) : bool :=
  negb (String.eqb s "") && negb (has_char SP s)
  && negb (has_char SLASH s) && negb (has_char LF s).

(** The check of a metadata-preserving download on a response. *)
Definition preserve_gate (cd : Codec) (res : Response) : bool :=
  IsFailure cd res && NoStandardProtocolType cd res.

(** The number of bytes in a run of chunks. *)
Definition chunk_bytes (chunks : list string) : Z :=
  fold_right (fun c n => Z.of_nat (String.length c) + n) 0 chunks.

(** A computation only adds events to the trace. *)
Definition extends {A : Type} (c : M A) : Prop :=
  forall p, exists t, p_trace (fst (c p)) = (p_trace p ++ t)%list.

(** A run of byte counts that never goes down, starting at [from]. *)
Fixpoint nondecreasing (from : Z) (counts : list Z) : Prop :=
  match counts with
  | [] => True
  | c :: cs => from <= c /\ nondecreasing c cs
  end.

(** ** Scenarios *)

(** A session whose remote side emits [out] and then closes its output,
    takes any input and exits with [exit]. *)
Definition scripted_session (out : string) (exit : option error) : Session :=
  mkSession (Ok (mkReader out None))
            (Ok (mkWriter None (ErrTransport "write on closed pipe")))
            None exit 1.

Definition scripted_client (out : string) (exit : option error) : Client :=
  mkClient 0 "scp" (Ok (scripted_session out exit)).

(** A destination that takes any number of bytes. *)
Definition open_sink : Writer := mkWriter None (ErrTransport "short write").

(** A destination that takes nothing. *)
Definition full_sink : Writer :=
  mkWriter (Some O) (ErrTransport "no space left on device").

(** The remote side of a metadata-preserving download of [hello]. *)
Definition preserve_script : string :=
  "T1700000000 0 1700000001 0" ++ newline
  ++ "C0644 5 test.txt" ++ newline ++ "hello".

(** The remote side of a plain download of [hello]. *)
Definition download_script : string :=
  "C0644 5 test.txt" ++ newline ++ "hello".

(** The remote side of an upload that goes well: the two acks. *)
Definition upload_script : string := nul ++ nul.

(** The remote side of an upload refused after the header line. *)
Definition failure_script : string := String "002" "no space" ++ newline.

(** The remote side of a download refused at once. *)
Definition refusal_script : string := String "002" "no such file" ++ newline.

(** A client with a [Timeout] of thirty seconds, in nanoseconds. *)
Definition timed_client (out : string) : Client :=
  mkClient 30000000000 "scp" (Ok (scripted_session out None)).

(** ** Uploads from a file, downloads to a file *)

(** An [os.File] as the upload sees it: what [file.Stat()] answers, the
    size in bytes it reports, and the bytes reading the file delivers. *)
Record File : Type := mkFile {
  Stat : result Z;
  f_contents : Reader
}.

Definition stat_error : string := "failed to stat file".

Section FileTransfers.

Context (cd : Codec).

(** [CopyFromFilePassThru]. *)
Definition CopyFromFilePassThru (a : Client) (tl : list signal) (file : File)
  (remotePath permissions : string) (passThru : option PassThru) : Outcome :=
  match Stat file with
  | Err e => mkOutcome (Returns (Some (ErrWrap stat_error e))) []
  | Ok size =>
      CopyPassThru cd a tl (f_contents file) remotePath permissions size
        passThru
  end.

(** [CopyFromFile]. *)
Definition CopyFromFile (a : Client) (tl : list signal) (file : File)
  (remotePath permissions : string) : Outcome :=
  CopyFromFilePassThru a tl file remotePath permissions None.

(** [CopyFromRemote]: the file is the destination writer. *)
Definition CopyFromRemote (a : Client) (tl : list signal) (file : Writer)
  (remotePath : string) : Outcome :=
  CopyFromRemotePassThru cd a tl file remotePath None.

End FileTransfers.

(** ** Further observations *)

(** The timeline without the timer's signals. *)
Definition without_timer (tl : list signal) : list signal :=
  filter (fun s => match s with SigTimer => false | _ => true end) tl.

(** The setup of an upload fails: no session, no pipe, or [Start] fails. *)
Definition upload_setup_fails (a : Client) : Prop :=
  match NewSession a with
  | Err _ => True
  | Ok session =>
      match StdoutPipe session, StdinPipe session, Start_err session with
      | Ok _, Ok _, None => False
      | _, _, _ => True
      end
  end.

(** The progress events of a trace, as pairs observed, total. *)
Fixpoint progress_events (tr : list event) : list (Z * Z) :=
  match tr with
  | [] => []
  | EvProgress n d :: t => (n, d) :: progress_events t
  | _ :: t => progress_events t
  end.

(** * Properties *)

(** ** Strings *)

Lemma has_char_app (c : ascii) (s t : string) :
  has_char c (s ++ t) = has_char c s || has_char c t.
Proof.
  induction s as [|a s IH]; simpl; [reflexivity|].
  now rewrite IH, orb_assoc.
Qed.

Lemma contains_has_char (s m : string) (c : ascii) :
  contains s m -> has_char c m = true -> has_char c s = true.
Proof.
  intros (pre & post & ->) H.
  now rewrite !has_char_app, H, orb_true_r.
Qed.

Lemma contains_refl (s : string) : contains s s.
Proof.
  exists "", "". simpl.
  induction s as [|a s IH]; simpl; [reflexivity | now rewrite <- IH].
Qed.

Lemma split_on_single (sep : ascii) (s : string) :
  has_char sep s = false -> split_on sep s = [s].
Proof.
  induction s as [|a s IH]; simpl; [reflexivity|].
  intros H. apply orb_false_iff in H as [Ha Hs].
  rewrite Ha, (IH Hs). reflexivity.
Qed.

Lemma split_on_app (sep : ascii) (s t : string) :
  has_char sep s = false ->
  split_on sep (s ++ String sep t) = s :: split_on sep t.
Proof.
  induction s as [|a s IH]; simpl.
  - intros _. now rewrite Ascii.eqb_refl.
  - intros H. apply orb_false_iff in H as [Ha Hs].
    rewrite Ha, (IH Hs). reflexivity.
Qed.

Lemma read_line_app (s rest : string) :
  has_char LF s = false ->
  read_line (s ++ String LF rest) = Some (s, rest).
Proof.
  induction s as [|a s IH]; simpl.
  - reflexivity.
  - intros H. apply orb_false_iff in H as [Ha Hs].
    rewrite Ha, (IH Hs). reflexivity.
Qed.

Lemma append_assoc (s t u : string) : (s ++ t) ++ u = s ++ t ++ u.
Proof.
  induction s as [|a s IH]; simpl; [reflexivity | now rewrite IH].
Qed.

(** ** Numbers in control lines *)

Lemma uint_digits_no_char (c : ascii) (d : Decimal.uint) :
  (nat_of_ascii c < 48)%nat ->
  has_char c (NilEmpty.string_of_uint d) = false.
Proof.
  intros Hc.
  assert (Hne : forall a, (48 <= nat_of_ascii a)%nat -> Ascii.eqb a c = false).
  { intros a Ha. apply Ascii.eqb_neq. intros ->. lia. }
  induction d; cbn [NilEmpty.string_of_uint has_char]; try reflexivity;
    rewrite IHd, orb_false_r; apply Hne; vm_compute; lia.
Qed.

Lemma format_int_no_char (c : ascii) (z : Z) :
  0 <= z -> (nat_of_ascii c < 48)%nat ->
  has_char c (format_int z) = false.
Proof.
  intros Hz Hc. unfold format_int.
  destruct z as [|p|p]; [| | lia].
  - change (Ascii.eqb "0" c || false = false).
    rewrite orb_false_r. apply Ascii.eqb_neq. intros <-.
    vm_compute in Hc. lia.
  - cbn [Z.to_int NilZero.string_of_int]. unfold NilZero.string_of_uint.
    pose proof (uint_digits_no_char c (Pos.to_uint p) Hc) as H.
    pose proof (DecimalPos.Unsigned.to_uint_nonnil p) as Hn.
    destruct (Pos.to_uint p); try exact H. now elim Hn.
Qed.

Lemma parse_format_int (z : Z) : parse_int (format_int z) = Some z.
Proof.
  unfold parse_int, format_int.
  rewrite NilZero.isi.
  - simpl. now rewrite DecimalZ.of_to.
  - destruct z; simpl; try discriminate.
    intros [= H]. now apply DecimalPos.Unsigned.to_uint_nonnil in H.
  - destruct z; simpl; try discriminate.
    intros [= H]. now apply DecimalPos.Unsigned.to_uint_nonnil in H.
Qed.

Lemma octal_no_char (c : ascii) (s : string) :
  is_octal_digit c = false -> all_octal s = true -> has_char c s = false.
Proof.
  intros Hc. unfold all_octal.
  induction s as [|a s IH]; simpl; [reflexivity|].
  intros H. apply andb_true_iff in H as [Ha Hs].
  rewrite (IH Hs), orb_false_r.
  apply Ascii.eqb_neq. intros ->. congruence.
Qed.

(** ** The header line (C7) *)

Lemma valid_permissions_parse (s : string) :
  valid_permissions s = true -> parse_octal s = Some (octal_value s).
Proof.
  unfold valid_permissions, parse_octal. intros H.
  apply andb_true_iff in H as [Hne Hoct].
  destruct s; [discriminate Hne|]. now rewrite Hoct.
Qed.

Lemma valid_permissions_no_char (c : ascii) (s : string) :
  is_octal_digit c = false -> valid_permissions s = true ->
  has_char c s = false.
Proof.
  intros Hc H. apply andb_true_iff in H as [_ Hoct].
  now apply octal_no_char.
Qed.

Lemma header_line (permissions : string) (size : Z) (name rest : string) :
  header permissions size name ++ rest
  = String "C" ((permissions ++ " " ++ format_int size ++ " " ++ name)
                ++ String LF rest).
Proof.
  unfold header, newline. cbn [append]. f_equal.
  repeat first [rewrite append_assoc | progress cbn [append]].
  reflexivity.
Qed.

(** C7. For every valid triple of permissions, size and name, the upload
    header line [C<permissions> <size> <name>\n], read back as a response
    and parsed by the file-info parser, gives the mode the permissions
    denote, the same size and the same name. *)
Theorem header_round_trip (permissions : string) (size : Z)
  (name rest : string) (e : option error) :
  valid_permissions permissions = true ->
  0 <= size ->
  valid_name name = true ->
  exists res,
    SpecCodec.ParseResponse (mkReader (header permissions size name ++ rest) e)
    = Ok (res, mkReader rest e) /\
    SpecCodec.ParseFileInfos res
    = Ok (mkFileInfos (octal_value permissions) size name None None).
Proof.
  intros Hp Hs Hn.
  unfold valid_name in Hn.
  apply andb_true_iff in Hn as [Hn Hlf].
  apply andb_true_iff in Hn as [Hn Hslash].
  apply andb_true_iff in Hn as [Hne Hsp].
  apply negb_true_iff in Hlf, Hslash, Hsp, Hne.
  set (body := permissions ++ " " ++ format_int size ++ " " ++ name).
  exists (mkResponse "C" body). split.
  - unfold SpecCodec.ParseResponse. cbn [r_data r_err].
    rewrite header_line. fold body.
    change (Ascii.eqb "C" NUL) with false. cbv iota.
    rewrite read_line_app; [reflexivity|].
    unfold body. rewrite !has_char_app.
    rewrite (valid_permissions_no_char LF permissions eq_refl Hp).
    rewrite (format_int_no_char LF size Hs) by (vm_compute; lia).
    rewrite Hlf. reflexivity.
  - unfold SpecCodec.ParseFileInfos, SpecCodec.line_of.
    cbn [Type_ Message]. unfold SpecCodec.parseFileInfos, body.
    change (" " ++ format_int size ++ " " ++ name)
      with (String SP (format_int size ++ String SP name)).
    rewrite split_on_app
      by exact (valid_permissions_no_char SP permissions eq_refl Hp).
    rewrite split_on_app by (apply format_int_no_char; [exact Hs | vm_compute; lia]).
    rewrite (split_on_single SP name Hsp).
    rewrite (valid_permissions_parse permissions Hp), parse_format_int.
    destruct (size <? 0) eqn:Hneg; [apply Z.ltb_lt in Hneg; lia|].
    destruct name as [|a name]; [discriminate Hne|].
    now rewrite Hslash.
Qed.

Lemma header_round_trip_witness :
  exists res,
    SpecCodec.ParseResponse (mkReader (header "0644" 5 "test.txt" ++ "hello") None)
    = Ok (res, mkReader "hello" None) /\
    SpecCodec.ParseFileInfos res
    = Ok (mkFileInfos (octal_value "0644") 5 "test.txt" None None).
Proof.
  apply (header_round_trip "0644" 5 "test.txt" "hello" None).
  - reflexivity.
  - lia.
  - reflexivity.
Defined.

(** ** The merge of the timestamp line (C8) *)

(** C8. In a metadata-preserving download that receives the timestamp line
    [T1700000000 0 1700000001 0] and then the header [C0644 5 test.txt],
    the handshake ends, with the body [hello] still unread and nothing
    written to the destination, on the file-info value with
    mtime 1700000000, atime 1700000001, size 5, permissions 0644 and name
    [test.txt]; the body phase then copies the five bytes. *)
Theorem preserve_merges_times :
  let session := scripted_session preserve_script None in
  let cmd := mkCommand "scp" "-f -p" "test.txt" in
  let inp := mkWriter None (ErrTransport "write on closed pipe") in
  preserve_handshake SpecCodec.codec session cmd None
    (mkPipes (mkReader preserve_script None) inp [])
  = (mkPipes (mkReader "hello" None) inp
             [EvStart cmd; EvStdin nul; EvStdin nul; EvStdin nul],
     inr (mkFileInfos (octal_value "0644") 5 "test.txt"
                      (Some 1700000000) (Some 1700000001)))
  /\ octal_value "0644" = 420
  /\ CopyFromRemotePreserveProgressPassThru SpecCodec.codec
       (scripted_client preserve_script None) [SigDone Protocol]
       (mkProgram None) [false; false; false; false; false; false]
       open_sink "test.txt" None
     = mkOutcome (Returns None)
         [EvNewSession; EvStart (mkCommand "scp" "-f -p" "test.txt");
          EvStdin nul; EvStdin nul; EvStdin nul;
          EvProgress 2 5; EvSink "he"; EvProgress 4 5; EvSink "ll";
          EvProgress 5 5; EvSink "o";
          EvStdin nul; EvStdinClose; EvSessionClose].
Proof.
  cbv zeta. split; [vm_compute; reflexivity|].
  split; vm_compute; reflexivity.
Qed.

(** ** The progress decorator (C9) *)

Lemma wrap_int_small (z : Z) :
  - 2 ^ 63 <= z < 2 ^ 63 -> wrap_int z = z.
Proof.
  intros H. unfold wrap_int.
  rewrite Z.mod_small; lia.
Qed.

Lemma chunk_bytes_nonneg (chunks : list string) : 0 <= chunk_bytes chunks.
Proof.
  induction chunks as [|c cs IH]; cbn [chunk_bytes fold_right]; [lia|].
  fold (chunk_bytes cs). lia.
Qed.

Lemma chunk_bytes_cons (c : string) (cs : list string) :
  chunk_bytes (c :: cs) = Z.of_nat (String.length c) + chunk_bytes cs.
Proof. reflexivity. Qed.

Lemma progressWriter_Write_fields (pw : progressWriter) (c : string) :
  let pw1 := fst (progressWriter_Write pw c) in
  total pw1 = total pw /\ onProgress pw1 = onProgress pw /\
  downloaded pw1 = wrap_int (downloaded pw + Z.of_nat (String.length c)).
Proof. cbv zeta. unfold progressWriter_Write. cbn. repeat split. Qed.

Lemma progressWriter_Writes_cons (pw : progressWriter) (c : string)
  (cs : list string) :
  progressWriter_Writes pw (c :: cs)
  = (fst (progressWriter_Writes (fst (progressWriter_Write pw c)) cs),
     (snd (progressWriter_Write pw c)
      ++ snd (progressWriter_Writes (fst (progressWriter_Write pw c)) cs))%list).
Proof.
  cbn [progressWriter_Writes].
  destruct (progressWriter_Write pw c) as [pw1 calls1]. cbn [fst snd].
  destruct (progressWriter_Writes pw1 cs) as [pw2 calls2]. reflexivity.
Qed.

Lemma progress_known_total (pw : progressWriter) (chunks : list string) :
  0 < total pw -> onProgress pw = true ->
  0 <= downloaded pw -> downloaded pw + chunk_bytes chunks < 2 ^ 63 ->
  nondecreasing (downloaded pw) (running_counts pw chunks) /\
  snd (progressWriter_Writes pw chunks)
  = map (fun d => (d, total pw)) (running_counts pw chunks) /\
  downloaded (fst (progressWriter_Writes pw chunks))
  = downloaded pw + chunk_bytes chunks.
Proof.
  revert pw. induction chunks as [|c cs IH]; intros pw Ht Hcb Hd Hsum.
  - cbn. repeat split. lia.
  - rewrite chunk_bytes_cons in Hsum.
    pose proof (chunk_bytes_nonneg cs) as Hcs.
    destruct (progressWriter_Write_fields pw c) as (Htot & Hon & Hdl).
    rewrite wrap_int_small in Hdl by lia.
    rewrite progressWriter_Writes_cons. cbn [running_counts fst snd].
    set (pw1 := fst (progressWriter_Write pw c)) in *.
    destruct (IH pw1) as (Hmono & Hcalls & Hfin); try lia; try congruence.
    cbn [nondecreasing map]. rewrite Hcalls, Hfin, Htot, chunk_bytes_cons.
    split; [split; [lia | exact Hmono]|].
    split; [|lia].
    unfold progressWriter_Write at 1. cbn [snd].
    apply Z.ltb_lt in Ht. rewrite Ht, Hcb. cbn [andb app].
    reflexivity.
Qed.

Lemma progress_unknown_total (pw : progressWriter) (chunks : list string) :
  total pw <= 0 -> snd (progressWriter_Writes pw chunks) = [].
Proof.
  revert pw. induction chunks as [|c cs IH]; intros pw Ht; [reflexivity|].
  rewrite progressWriter_Writes_cons. cbn [snd].
  destruct (progressWriter_Write_fields pw c) as (Htot & _ & _).
  rewrite IH by lia.
  unfold progressWriter_Write. cbn [snd].
  destruct (0 <? total pw) eqn:H; [apply Z.ltb_lt in H; lia|reflexivity].
Qed.

(** C9. With a known positive total, a callback that is not nil, and a
    byte count that stays in the range of Go's [int] (a transfer delivers
    at most [total] bytes), the running count never goes down across
    successive [Write] calls, equals the bytes observed, and the callback
    is invoked on every chunk with the pair observed, total of the
    fraction; with a total that is zero or negative the callback is never
    invoked. *)
Theorem progress_callback_contract (pw : progressWriter)
  (chunks : list string) :
  (0 < total pw -> onProgress pw = true ->
   0 <= downloaded pw -> downloaded pw + chunk_bytes chunks < 2 ^ 63 ->
   nondecreasing (downloaded pw) (running_counts pw chunks) /\
   snd (progressWriter_Writes pw chunks)
   = map (fun d => (d, total pw)) (running_counts pw chunks) /\
   downloaded (fst (progressWriter_Writes pw chunks))
   = downloaded pw + chunk_bytes chunks) /\
  (total pw <= 0 -> snd (progressWriter_Writes pw chunks) = []).
Proof.
  split.
  - apply progress_known_total.
  - apply progress_unknown_total.
Qed.

Lemma progress_callback_contract_witness :
  (nondecreasing 0
     (running_counts (mkProgressWriter 5 0 open_sink (NewReader "hello") true)
                     ["he"; "ll"; "o"]) /\
   snd (progressWriter_Writes
          (mkProgressWriter 5 0 open_sink (NewReader "hello") true)
          ["he"; "ll"; "o"])
   = map (fun d => (d, 5))
       (running_counts (mkProgressWriter 5 0 open_sink (NewReader "hello") true)
                       ["he"; "ll"; "o"]) /\
   downloaded (fst (progressWriter_Writes
                      (mkProgressWriter 5 0 open_sink (NewReader "hello") true)
                      ["he"; "ll"; "o"]))
   = 0 + chunk_bytes ["he"; "ll"; "o"]) /\
  snd (progressWriter_Writes
         (mkProgressWriter 0 0 open_sink (NewReader "hello") true)
         ["he"; "ll"; "o"]) = [].
Proof.
  split.
  - apply (proj1 (progress_callback_contract
                    (mkProgressWriter 5 0 open_sink (NewReader "hello") true)
                    ["he"; "ll"; "o"])).
    + reflexivity.
    + reflexivity.
    + discriminate.
    + reflexivity.
  - apply (proj2 (progress_callback_contract
                    (mkProgressWriter 0 0 open_sink (NewReader "hello") true)
                    ["he"; "ll"; "o"])).
    discriminate.
Defined.

(** ** The harness (C6) *)

Lemma wait_from_blocked_app (pre : list signal) :
  forall wg ctx order,
    wait_from wg ctx pre order = WaitBlocked ->
    exists wg' order',
      wg' <> [] /\
      forall post,
        wait_from wg ctx (pre ++ post) order = wait_from wg' ctx post order'.
Proof.
  induction pre as [|s pre IH]; intros wg ctx order H.
  - destruct wg as [|u wg]; [discriminate H|].
    exists (u :: wg), order. split; [discriminate|]. reflexivity.
  - destruct wg as [|u wg]; [discriminate H|].
    cbn [wait_from app] in *.
    destruct s as [v|e| |v].
    + destruct (existsb (unit_eqb v) (u :: wg)).
      * destruct (IH _ _ _ H) as (wg' & order' & Hne & Hpost).
        exists wg', order'. split; [exact Hne|].
        intros post. now rewrite Hpost.
      * destruct (IH _ _ _ H) as (wg' & order' & Hne & Hpost).
        exists wg', order'. split; [exact Hne|].
        intros post. now rewrite Hpost.
    + discriminate H.
    + destruct (timer_armed ctx); [discriminate H|].
      destruct (IH _ _ _ H) as (wg' & order' & Hne & Hpost).
      exists wg', order'. split; [exact Hne|].
      intros post. now rewrite Hpost.
    + destruct (existsb (unit_eqb v) (u :: wg));
        destruct (IH _ _ _ H) as (wg' & order' & Hne & Hpost);
        exists wg', order'; (split; [exact Hne|]);
        intros post; now rewrite Hpost.
Qed.

(** [wait] answers the context's error as soon as the context fires while
    a supervised goroutine is pending, whatever comes after. *)
Lemma wait_cancelled_first (wg : list unit_id) (ctx : Context)
  (tl : list signal) (e : error) :
  cancelled_first wg ctx tl e -> wait wg ctx tl = WaitErr e.
Proof.
  intros (pre & post & Hpre & Htl). unfold wait in *.
  destruct (wait_from_blocked_app pre wg ctx [] Hpre)
    as (wg' & order' & Hne & Hpost).
  destruct wg' as [|u wg']; [now elim Hne|].
  destruct Htl as [-> | (-> & Harmed & ->)]; rewrite Hpost; cbn [wait_from].
  - reflexivity.
  - now rewrite Harmed.
Qed.

Lemma CopyPassThru_cancelled (cd : Codec) (a : Client) (tl : list signal)
  (r : Reader) (remotePath permissions : string) (size : Z)
  (passThru : option PassThru) (session : Session) (stdout : Reader)
  (w : Writer) (e : error) :
  NewSession a = Ok session ->
  StdoutPipe session = Ok stdout ->
  StdinPipe session = Ok w ->
  Start_err session = None ->
  wait [Protocol; ExitWaiter] (with_client_timeout a caller_ctx) tl = WaitErr e ->
  result_of (CopyPassThru cd a tl r remotePath permissions size passThru)
  = Returns (Some e).
Proof.
  intros Hs Ho Hi Hst Hw. unfold CopyPassThru.
  rewrite Hs, Ho, Hi, Hst.
  destruct (upload_unit _ _ _ _ _ _) as [tr sends].
  now rewrite Hw.
Qed.

(** A context that fires before the protocol goroutine is done fires as
    well when that goroutine never gets to [wg.Done()]. *)
Lemma wait_never_done_err (ctx : Context) (tl : list signal) (e : error) :
  forall order order',
    wait_from [Protocol] ctx tl order = WaitErr e ->
    wait_from [Protocol] ctx (never_done Protocol tl) order' = WaitErr e.
Proof.
  induction tl as [|s tl IH]; intros order order' H; [discriminate H|].
  cbn [wait_from] in H.
  destruct s as [[|]|e'| |[|]]; cbn [never_done filter unit_eqb negb existsb
                                      orb pending_without] in *;
    fold (never_done Protocol tl).
  - destruct tl; discriminate H.
  - cbn [wait_from existsb unit_eqb orb]. exact (IH _ _ H).
  - exact H.
  - cbn [wait_from]. destruct (timer_armed ctx); [exact H | exact (IH _ _ H)].
  - exact (IH _ _ H).
  - cbn [wait_from existsb unit_eqb orb]. exact (IH _ _ H).
Qed.

Lemma download_call_cancelled (a : Client) (tl : list signal)
  (unit : Session -> list event * unit_end) (session : Session) (e : error) :
  NewSession a = Ok session ->
  wait [Protocol] (with_client_timeout a caller_ctx) tl = WaitErr e ->
  result_of (download_call a tl unit) = Returns (Some e).
Proof.
  intros Hs Hw. unfold download_call. rewrite Hs.
  destruct (unit session) as [tr [ch|code]].
  - now rewrite Hw.
  - unfold wait in *. now rewrite (wait_never_done_err _ _ _ _ [] Hw).
Qed.

(** C6. When the caller's context, combined with the client's [Timeout]
    by whichever fires first, fires before the supervised goroutines have
    all finished, every transfer call whose session is set up returns the
    context's error; the goroutines need not finish, nor ever signal. *)
Theorem cancellation_returns_at_once (cd : Codec) (a : Client)
  (session : Session) (tl : list signal) (e : error) :
  NewSession a = Ok session ->
  let ctx := with_client_timeout a caller_ctx in
  (forall r remotePath permissions size passThru stdout w,
      StdoutPipe session = Ok stdout ->
      StdinPipe session = Ok w ->
      Start_err session = None ->
      cancelled_first [Protocol; ExitWaiter] ctx tl e ->
      result_of (CopyPassThru cd a tl r remotePath permissions size passThru)
      = Returns (Some e)) /\
  (forall w remotePath passThru prog sched,
      cancelled_first [Protocol] ctx tl e ->
      result_of (CopyFromRemotePassThru cd a tl w remotePath passThru)
      = Returns (Some e) /\
      result_of (CopyFromRemoteProgressPassThru cd a tl prog sched w
                   remotePath passThru)
      = Returns (Some e) /\
      result_of (CopyFromRemotePreserveProgressPassThru cd a tl prog sched w
                   remotePath passThru)
      = Returns (Some e)).
Proof.
  intros Hs ctx. split.
  - intros r remotePath permissions size passThru stdout w Ho Hi Hst Hc.
    eapply CopyPassThru_cancelled; eauto.
    now apply wait_cancelled_first.
  - intros w remotePath passThru prog sched Hc.
    apply wait_cancelled_first in Hc.
    repeat split; eapply download_call_cancelled; eauto.
Qed.

Lemma cancellation_returns_at_once_witness :
  result_of (CopyPassThru SpecCodec.codec (timed_client upload_script)
               [SigDone Protocol; SigTimer] (NewReader "hello")
               "test.txt" "0644" 5 None)
  = Returns (Some ErrDeadlineExceeded) /\
  result_of (CopyFromRemotePassThru SpecCodec.codec
               (timed_client download_script)
               [SigCancel ErrCanceled; SigDone Protocol] open_sink
               "test.txt" None)
  = Returns (Some ErrCanceled).
Proof.
  split.
  - apply (proj1 (cancellation_returns_at_once SpecCodec.codec
                    (timed_client upload_script)
                    (scripted_session upload_script None)
                    [SigDone Protocol; SigTimer] ErrDeadlineExceeded
                    eq_refl)
             (NewReader "hello") "test.txt" "0644" 5 None
             (mkReader upload_script None)
             (mkWriter None (ErrTransport "write on closed pipe"))
             eq_refl eq_refl eq_refl).
    exists [SigDone Protocol], []. split; [reflexivity|].
    right. repeat split.
  - apply (proj2 (cancellation_returns_at_once SpecCodec.codec
                    (timed_client download_script)
                    (scripted_session download_script None)
                    [SigCancel ErrCanceled; SigDone Protocol] ErrCanceled
                    eq_refl)
             open_sink "test.txt" None (mkProgram None) []).
    exists [], [SigDone Protocol]. split; [reflexivity|].
    left. reflexivity.
Defined.

(** ** Running the protocol goroutines *)

Lemma write_unbounded (w : Writer) (s : string) :
  w_room w = None -> write w s = (s, w, None).
Proof. intros H. unfold write. now rewrite H. Qed.

Lemma write_accepts (w : Writer) (s : string) :
  accepts w s = true -> exists w', write w s = (s, w', None).
Proof.
  unfold accepts, write. destruct (w_room w) as [k|].
  - intros ->. eexists. reflexivity.
  - intros _. eexists. reflexivity.
Qed.

Lemma write_in_accepts (p : Pipes) (s : string) :
  accepts (p_in p) s = true ->
  exists w',
    write_in s p
    = (mkPipes (p_out p) w' (p_trace p ++ [EvStdin s]), inr tt).
Proof.
  intros H. destruct (write_accepts _ _ H) as (w' & Hw).
  exists w'. unfold write_in. now rewrite Hw.
Qed.

Lemma write_in_unbounded (p : Pipes) (s : string) :
  w_room (p_in p) = None ->
  write_in s p
  = (mkPipes (p_out p) (p_in p) (p_trace p ++ [EvStdin s]), inr tt).
Proof.
  intros H. unfold write_in. now rewrite (write_unbounded _ _ H).
Qed.

Lemma stdin_writes_app (t u : list event) :
  stdin_writes (t ++ u) = (stdin_writes t ++ stdin_writes u)%list.
Proof.
  induction t as [|ev t IH]; [reflexivity|].
  destruct ev; cbn [app stdin_writes]; rewrite IH; reflexivity.
Qed.

Lemma wait_from_nil (ctx : Context) (tl : list signal) (order : list unit_id) :
  wait_from [] ctx tl order = WaitNil order.
Proof. destruct tl; reflexivity. Qed.

Lemma unit_eqb_eq (u v : unit_id) : unit_eqb u v = true <-> u = v.
Proof. destruct u, v; cbn; split; congruence. Qed.

Lemma existsb_unit_In (u : unit_id) (l : list unit_id) :
  existsb (unit_eqb u) l = true <-> In u l.
Proof.
  rewrite existsb_exists. split.
  - intros (v & Hv & Huv). destruct u, v; try discriminate Huv; exact Hv.
  - intros H. exists u. split; [exact H | now destruct u].
Qed.

Lemma record_send_spec (u : unit_id) (order : list unit_id) :
  NoDup order ->
  NoDup (record_send u order) /\
  In u (record_send u order) /\
  (forall v, In v order -> In v (record_send u order)).
Proof.
  intros Hnd. unfold record_send.
  destruct (existsb (unit_eqb u) order) eqn:Hin.
  - apply existsb_unit_In in Hin. now repeat split.
  - assert (Hnot : ~ In u order).
    { intros H. apply existsb_unit_In in H. congruence. }
    split; [|split].
    + apply NoDup_app; [exact Hnd | repeat constructor; intros [] |].
      intros v Hv [<-|[]]. now apply Hnot.
    + apply in_or_app. right. now left.
    + intros v Hv. apply in_or_app. now left.
Qed.

(** When [wait] returns nil every goroutine it waited for is in the send
    order, once. *)
Lemma wait_from_order (ctx : Context) (tl : list signal) :
  forall wg order0 order,
    wait_from wg ctx tl order0 = WaitNil order ->
    NoDup order0 ->
    NoDup order /\ forall u, In u wg \/ In u order0 -> In u order.
Proof.
  induction tl as [|s tl IH]; intros wg order0 order H Hnd.
  - destruct wg; [|discriminate H]. injection H as <-.
    split; [exact Hnd|]. now intros u [[]|Hu].
  - destruct wg as [|w0 wg].
    { injection H as <-. split; [exact Hnd|]. now intros u [[]|Hu]. }
    cbn [wait_from] in H. destruct s as [v|e| |v].
    + destruct (existsb (unit_eqb v) (w0 :: wg)) eqn:Hv.
      * destruct (record_send_spec v order0 Hnd) as (Hnd' & Hin & Hkeep).
        destruct (IH _ _ _ H Hnd') as (Hno & Hall).
        split; [exact Hno|]. intros u [Hu|Hu].
        -- destruct (unit_eqb v u) eqn:Hvu.
           ++ apply unit_eqb_eq in Hvu. subst u. apply Hall. now right.
           ++ apply Hall. left. unfold pending_without.
              apply filter_In. split; [exact Hu | now rewrite Hvu].
        -- apply Hall. right. now apply Hkeep.
      * now apply (IH _ _ _ H Hnd).
    + discriminate H.
    + destruct (timer_armed ctx); [discriminate H|].
      now apply (IH _ _ _ H Hnd).
    + destruct (existsb (unit_eqb v) (w0 :: wg)) eqn:Hv.
      * destruct (record_send_spec v order0 Hnd) as (Hnd' & Hin & Hkeep).
        destruct (IH _ _ _ H Hnd') as (Hno & Hall).
        split; [exact Hno|]. intros u [Hu|Hu].
        -- apply Hall. now left.
        -- apply Hall. right. now apply Hkeep.
      * now apply (IH _ _ _ H Hnd).
Qed.

(** The errors the two goroutines of an upload leave on [errCh] come in one
    of the two orders. *)
Lemma wait_two_orders (ctx : Context) (tl : list signal) (order : list unit_id) :
  wait [Protocol; ExitWaiter] ctx tl = WaitNil order ->
  order = [Protocol; ExitWaiter] \/ order = [ExitWaiter; Protocol].
Proof.
  intros H. destruct (wait_from_order ctx tl _ _ _ H (NoDup_nil _))
    as (Hnd & Hall).
  assert (HP : In Protocol order) by (apply Hall; left; now left).
  assert (HE : In ExitWaiter order) by (apply Hall; left; right; now left).
  destruct order as [|a [|b [|c l]]].
  - now elim HP.
  - destruct a; [destruct HE as [HE|[]] | destruct HP as [HP|[]]];
      discriminate.
  - inversion Hnd as [|? ? Hab _]; subst.
    destruct a, b; auto; elim Hab; now left.
  - exfalso. inversion Hnd as [|? ? Ha Hnd']; subst.
    inversion Hnd' as [|? ? Hb _]; subst.
    destruct a, b, c; first [ apply Ha; cbn; tauto | apply Hb; cbn; tauto ].
Qed.

(** ** An upload refused after its header (C2) *)

(** The upload goroutine when the response to the header is a failure: the
    header is all it writes and the failure's message is what it sends. *)
Lemma upload_unit_refused (cd : Codec) (r : Reader)
  (permissions : string) (size : Z) (filename : string) (p : Pipes)
  (res : Response) (rest : Reader) :
  accepts (p_in p) (header permissions size filename) = true ->
  ParseResponse cd (p_out p) = Ok (res, rest) ->
  IsFailure cd res = true ->
  upload_unit cd r permissions size filename p
  = ((p_trace p ++ [EvStdin (header permissions size filename)]
      ++ [EvStdinClose])%list,
     [Some (ErrNew (GetMessage cd res))]).
Proof.
  intros Hacc Hres Hfail.
  destruct (write_in_accepts p _ Hacc) as (w' & Hw).
  unfold upload_unit, upload_protocol, bind. rewrite Hw.
  unfold checkResponse, bind, parse_response. cbn [p_out p_in p_trace].
  rewrite Hres, Hfail. cbn [fail p_trace sent].
  now rewrite <- app_assoc.
Qed.

(** C2, as the code has it. When the response read after the header line
    signals a failure with message [m], the protocol goroutine has written
    the header line and nothing else to the session's input (no payload
    byte, no terminator) and the error it sends on [errCh] has the message
    [m]; the call returns that error when [wait] sees both goroutines
    finish and the process-exit waiter has sent no error on [errCh] before
    it: [order] is the order of the sends. *)
Theorem upload_refused_after_header (cd : Codec) (a : Client)
  (tl : list signal) (r : Reader) (remotePath permissions : string)
  (size : Z) (passThru : option PassThru) (session : Session)
  (stdout : Reader) (w : Writer) (res : Response) (rest : Reader)
  (m : string) :
  NewSession a = Ok session ->
  StdoutPipe session = Ok stdout ->
  StdinPipe session = Ok w ->
  Start_err session = None ->
  accepts w (header permissions size (Base remotePath)) = true ->
  ParseResponse cd stdout = Ok (res, rest) ->
  IsFailure cd res = true ->
  GetMessage cd res = m ->
  let o := CopyPassThru cd a tl r remotePath permissions size passThru in
  stdin_writes (trace_of o) = [header permissions size (Base remotePath)] /\
  forall order,
    wait [Protocol; ExitWaiter] (with_client_timeout a caller_ctx) tl
    = WaitNil order ->
    Wait_err session = None \/ order = [Protocol; ExitWaiter] ->
    result_of o = Returns (Some (ErrNew m)) /\ contains (Error (ErrNew m)) m.
Proof.
  intros Hs Ho Hi Hst Hacc Hres Hfail Hm o. subst o.
  unfold CopyPassThru. rewrite Hs, Ho, Hi, Hst.
  rewrite (upload_unit_refused cd _ permissions size (Base remotePath)
             (mkPipes stdout w _) res rest Hacc Hres Hfail).
  rewrite Hm. split.
  - destruct (wait _ _ tl); reflexivity.
  - intros order Hw Hord. rewrite Hw. cbn [result_of].
    split; [|apply contains_refl].
    destruct (wait_two_orders _ _ _ Hw) as [-> | ->].
    + reflexivity.
    + destruct Hord as [Hnone | Hord]; [|discriminate Hord].
      unfold exit_unit. cbn [flat_map]. now rewrite Hnone.
Qed.

Lemma upload_refused_after_header_witness :
  stdin_writes
    (trace_of (CopyPassThru SpecCodec.codec
                 (scripted_client failure_script (Some (ErrProcess 1)))
                 [SigSent Protocol; SigDone ExitWaiter; SigDone Protocol]
                 (NewReader "hello") "/tmp/test.txt" "0644" 5 None))
  = [header "0644" 5 "test.txt"] /\
  result_of (CopyPassThru SpecCodec.codec
               (scripted_client failure_script (Some (ErrProcess 1)))
               [SigSent Protocol; SigDone ExitWaiter; SigDone Protocol]
               (NewReader "hello") "/tmp/test.txt" "0644" 5 None)
  = Returns (Some (ErrNew "no space")) /\
  contains (Error (ErrNew "no space")) "no space".
Proof.
  pose proof (upload_refused_after_header SpecCodec.codec
                (scripted_client failure_script (Some (ErrProcess 1)))
                [SigSent Protocol; SigDone ExitWaiter; SigDone Protocol]
                (NewReader "hello") "/tmp/test.txt" "0644" 5 None
                (scripted_session failure_script (Some (ErrProcess 1)))
                (mkReader failure_script None)
                (mkWriter None (ErrTransport "write on closed pipe"))
                (mkResponse "002" "no space") (mkReader "" None) "no space"
                eq_refl eq_refl eq_refl eq_refl eq_refl eq_refl eq_refl
                eq_refl) as [Hwrites Hret].
  split; [exact Hwrites|].
  apply (Hret [Protocol; ExitWaiter] eq_refl). right. reflexivity.
Defined.

(** C2 as stated fails, in two ways. The response to the header is the
    failure [no space] in both. In the first the protocol goroutine has
    finished and the context is cancelled while the remote process has not
    exited: the call returns the context's error. In the second the remote
    command exits with a failure status and the process-exit waiter sends
    its error on [errCh] before the protocol goroutine sends its own: the
    call returns the waiter's error. Neither message contains
    [no space]. *)
Lemma upload_refused_then_cancelled :
  SpecCodec.ParseResponse (mkReader failure_script None)
  = Ok (mkResponse "002" "no space", mkReader "" None) /\
  SpecCodec.IsFailure (mkResponse "002" "no space") = true /\
  (~ exists e,
      result_of (CopyPassThru SpecCodec.codec
                   (scripted_client failure_script None)
                   [SigDone Protocol; SigCancel ErrCanceled]
                   (NewReader "hello") "/tmp/test.txt" "0644" 5 None)
      = Returns (Some e) /\
      contains (Error e) "no space") /\
  (~ exists e,
      result_of (CopyPassThru SpecCodec.codec
                   (scripted_client failure_script (Some (ErrProcess 1)))
                   [SigDone ExitWaiter; SigDone Protocol]
                   (NewReader "hello") "/tmp/test.txt" "0644" 5 None)
      = Returns (Some e) /\
      contains (Error e) "no space").
Proof.
  split; [reflexivity|]. split; [reflexivity|].
  split; intros (e & Hret & Hc);
    vm_compute in Hret; injection Hret as <-;
    (apply (contains_has_char _ _ "p"%char) in Hc; [|reflexivity]);
    discriminate Hc.
Qed.

(** ** The body of an upload (C5) *)

(** The upload goroutine when the header is accepted: it writes the header
    line, every byte of the source, and the terminator, whatever the
    declared size. *)
Lemma upload_unit_streams (cd : Codec) (r : Reader)
  (permissions : string) (size : Z) (filename : string) (p : Pipes)
  (res : Response) (rest : Reader) :
  w_room (p_in p) = None ->
  ParseResponse cd (p_out p) = Ok (res, rest) ->
  IsFailure cd res = false ->
  r_err r = None ->
  exists sends,
    upload_unit cd r permissions size filename p
    = ((p_trace p ++ [EvStdin (header permissions size filename);
                      EvStdin (r_data r); EvStdin nul; EvStdinClose])%list,
       sends).
Proof.
  intros Hroom Hres Hok Heof.
  unfold upload_unit, upload_protocol, bind.
  rewrite (write_in_unbounded p _ Hroom).
  unfold checkResponse at 1, bind, parse_response. cbn [p_out p_in p_trace].
  rewrite Hres, Hok. cbn [ret].
  unfold io_Copy, bind.
  rewrite write_in_unbounded by exact Hroom. cbn [p_out p_in p_trace].
  rewrite Heof. cbn [check ret].
  rewrite write_in_unbounded by exact Hroom. cbn [p_out p_in p_trace].
  unfold checkResponse, bind, parse_response. cbn [p_out p_in p_trace].
  destruct (ParseResponse cd rest) as [[res2 rest2]|e2].
  - destruct (IsFailure cd res2); cbn [fail ret p_trace];
      eexists; rewrite <- !app_assoc; reflexivity.
  - eexists. cbn [p_trace]. rewrite <- !app_assoc. reflexivity.
Qed.

(** C5, as the code has it. Once the header is acknowledged, the body
    phase of an upload writes to the session's input every byte the source
    delivers up to its end, whatever the declared size: the size only
    appears in the header line. *)
Theorem upload_copies_whole_source (cd : Codec) (a : Client)
  (tl : list signal) (r : Reader) (remotePath permissions : string)
  (size : Z) (passThru : option PassThru) (session : Session)
  (stdout : Reader) (w : Writer) (res : Response) (rest : Reader) :
  NewSession a = Ok session ->
  StdoutPipe session = Ok stdout ->
  StdinPipe session = Ok w ->
  Start_err session = None ->
  w_room w = None ->
  ParseResponse cd stdout = Ok (res, rest) ->
  IsFailure cd res = false ->
  r_err (apply_passThru passThru r size) = None ->
  stdin_writes
    (trace_of (CopyPassThru cd a tl r remotePath permissions size passThru))
  = [header permissions size (Base remotePath);
     r_data (apply_passThru passThru r size);
     nul].
Proof.
  intros Hs Ho Hi Hst Hroom Hres Hok Heof.
  unfold CopyPassThru. rewrite Hs, Ho, Hi, Hst.
  destruct (upload_unit_streams cd (apply_passThru passThru r size)
              permissions size (Base remotePath)
              (mkPipes stdout w
                 [EvNewSession;
                  EvStart (mkCommand (RemoteBinary a) "-qt" remotePath)])
              res rest Hroom Hres Hok Heof) as (sends & ->).
  destruct (wait _ _ tl); reflexivity.
Qed.

Lemma upload_copies_whole_source_witness :
  stdin_writes
    (trace_of (CopyPassThru SpecCodec.codec
                 (scripted_client upload_script None)
                 [SigDone Protocol; SigDone ExitWaiter] (NewReader "hello")
                 "/tmp/test.txt" "0644" 5 None))
  = [header "0644" 5 "test.txt"; "hello"; nul].
Proof.
  apply (upload_copies_whole_source SpecCodec.codec
           (scripted_client upload_script None)
           [SigDone Protocol; SigDone ExitWaiter] (NewReader "hello")
           "/tmp/test.txt" "0644" 5 None
           (scripted_session upload_script None)
           (mkReader upload_script None)
           (mkWriter None (ErrTransport "write on closed pipe"))
           (mkResponse NUL "") (mkReader nul None)
           eq_refl eq_refl eq_refl eq_refl eq_refl eq_refl eq_refl eq_refl).
Defined.

(** C5 as stated fails: with a declared size of 2 the five bytes of the
    source are all written, and with a declared size of 9 the five bytes
    are written and the call returns nil. *)
Lemma upload_ignores_declared_size :
  CopyPassThru SpecCodec.codec (scripted_client upload_script None)
    [SigDone Protocol; SigDone ExitWaiter] (NewReader "hello")
    "/tmp/test.txt" "0644" 2 None
  = mkOutcome (Returns None)
      [EvNewSession; EvStart (mkCommand "scp" "-qt" "/tmp/test.txt");
       EvStdin (header "0644" 2 "test.txt"); EvStdin "hello"; EvStdin nul;
       EvStdinClose; EvSessionClose] /\
  String.length "hello" <> 2%nat /\
  CopyPassThru SpecCodec.codec (scripted_client upload_script None)
    [SigDone Protocol; SigDone ExitWaiter] (NewReader "hello")
    "/tmp/test.txt" "0644" 9 None
  = mkOutcome (Returns None)
      [EvNewSession; EvStart (mkCommand "scp" "-qt" "/tmp/test.txt");
       EvStdin (header "0644" 9 "test.txt"); EvStdin "hello"; EvStdin nul;
       EvStdinClose; EvSessionClose].
Proof.
  split; [vm_compute; reflexivity|].
  split; [discriminate|].
  vm_compute; reflexivity.
Qed.

(** ** Uploads from a reader of unknown length (C10) *)

Lemma extends_ret {A : Type} (a : A) : extends (ret a).
Proof. intros p. exists []. cbn. now rewrite app_nil_r. Qed.

Lemma extends_fail {A : Type} (e : error) : extends (@fail A e).
Proof. intros p. exists []. cbn. now rewrite app_nil_r. Qed.

Lemma extends_fail_message {A : Type} (m : string) :
  extends (@fail_message A m).
Proof. intros p. exists []. cbn. now rewrite app_nil_r. Qed.

Lemma extends_bind {A B : Type} (c : M A) (k : A -> M B) :
  extends c -> (forall a, extends (k a)) -> extends (bind c k).
Proof.
  intros Hc Hk p. unfold bind.
  destruct (Hc p) as (t1 & H1).
  destruct (c p) as [p' [ab|a]]; cbn [fst] in *.
  - now exists t1.
  - destruct (Hk a p') as (t2 & H2).
    exists (t1 ++ t2)%list. now rewrite H2, H1, app_assoc.
Qed.

Lemma extends_check (oe : option error) : extends (check oe).
Proof. destruct oe; [apply extends_fail | apply extends_ret]. Qed.

Lemma extends_lift {A : Type} (r : result A) : extends (lift r).
Proof. destruct r; [apply extends_ret | apply extends_fail]. Qed.

Lemma extends_emit (ev : event) : extends (emit ev).
Proof. intros p. now exists [ev]. Qed.

Lemma extends_write_in (s : string) : extends (write_in s).
Proof.
  intros p. unfold write_in.
  destruct (write (p_in p) s) as [[acc w'] [e|]]; now exists [EvStdin acc].
Qed.

Lemma extends_parse_response (cd : Codec) : extends (parse_response cd).
Proof.
  intros p. unfold parse_response.
  destruct (ParseResponse cd (p_out p)) as [[res r']|e];
    exists []; cbn; now rewrite app_nil_r.
Qed.

Lemma extends_checkResponse (cd : Codec) : extends (checkResponse cd).
Proof.
  apply extends_bind; [apply extends_parse_response|].
  intros res. destruct (IsFailure cd res);
    [apply extends_fail | apply extends_ret].
Qed.

Lemma extends_io_Copy (r : Reader) : extends (io_Copy r).
Proof.
  apply extends_bind; [apply extends_write_in|].
  intros _. apply extends_check.
Qed.

Create HintDb scp_extends.
#[local] Hint Resolve extends_ret extends_fail extends_fail_message
  extends_check extends_lift extends_emit extends_write_in
  extends_parse_response extends_checkResponse extends_io_Copy
  : scp_extends.

(** The upload goroutine's first write is the header line. *)
Lemma upload_unit_header_first (cd : Codec) (r : Reader)
  (permissions : string) (size : Z) (filename : string) (p : Pipes) :
  w_room (p_in p) = None ->
  exists rest sends,
    upload_unit cd r permissions size filename p
    = ((p_trace p ++ EvStdin (header permissions size filename) :: rest)%list,
       sends).
Proof.
  intros Hroom. unfold upload_unit, upload_protocol.
  unfold bind at 1. rewrite (write_in_unbounded p _ Hroom).
  match goal with
  | |- context [bind ?c ?k ?q] =>
      assert (Hext : extends (bind c k))
        by (repeat first [ solve [auto with scp_extends]
                         | apply extends_bind; [|intros ?] ]);
      destruct (Hext q) as (t & Ht); destruct (bind c k q) as [p' res]
  end.
  cbn [fst p_trace] in Ht. rewrite Ht.
  exists (t ++ [EvStdinClose])%list. eexists.
  rewrite <- !app_assoc. reflexivity.
Qed.



(** ** The response check of a metadata-preserving download (C3) *)

Section PreserveCheck.

Context (cd : Codec) (session : Session) (cmd : command)
        (passThru : option PassThru) (out rest : Reader) (inp : Writer)
        (res : Response).

Hypothesis Hstart : Start_err session = None.
Hypothesis Hroom : w_room inp = None.
Hypothesis Hres : ParseResponse cd out = Ok (res, rest).

(** The check on the timestamp-line response aborts with the peer's
    message when both flags are set. *)
Lemma preserve_time_gate_aborts :
  preserve_gate cd res = true ->
  preserve_handshake cd session cmd passThru (mkPipes out inp [])
  = (mkPipes rest inp [EvStart cmd; EvStdin nul],
     inl (mkAbort (ErrNew (GetMessage cd res)) None)).
Proof.
  unfold preserve_gate. intros Hgate.
  unfold preserve_handshake, bind, start. rewrite Hstart.
  unfold emit, Ack. cbn [p_out p_in p_trace app].
  rewrite write_in_unbounded by exact Hroom.
  unfold parse_response. cbn [p_out p_in p_trace app].
  rewrite Hres, Hgate. reflexivity.
Qed.

(** Otherwise the response goes to the timestamp parser, whose error
    ends the transfer. *)
Lemma preserve_time_gate_passes_to_parser (e : error) :
  preserve_gate cd res = false ->
  ParseFileTime cd res = Err e ->
  preserve_handshake cd session cmd passThru (mkPipes out inp [])
  = (mkPipes rest inp [EvStart cmd; EvStdin nul],
     inl (mkAbort e (Some e))).
Proof.
  unfold preserve_gate. intros Hgate Hparse.
  unfold preserve_handshake, bind, start. rewrite Hstart.
  unfold emit, Ack. cbn [p_out p_in p_trace app].
  rewrite write_in_unbounded by exact Hroom.
  unfold parse_response. cbn [p_out p_in p_trace app].
  rewrite Hres, Hgate. cbn [ret]. rewrite Hparse. reflexivity.
Qed.

Context (timeInfo : FileTimes) (res2 : Response) (rest2 : Reader).

Hypothesis Hgate1 : preserve_gate cd res = false.
Hypothesis Htime : ParseFileTime cd res = Ok timeInfo.
Hypothesis Hres2 : ParseResponse cd rest = Ok (res2, rest2).

(** The same check guards the header-line response. *)
Lemma preserve_header_gate_aborts :
  preserve_gate cd res2 = true ->
  preserve_handshake cd session cmd passThru (mkPipes out inp [])
  = (mkPipes rest2 inp [EvStart cmd; EvStdin nul; EvStdin nul],
     inl (mkAbort (ErrNew (GetMessage cd res2)) None)).
Proof.
  unfold preserve_gate in *. intros Hgate.
  unfold preserve_handshake, bind, start. rewrite Hstart.
  unfold emit, Ack. cbn [p_out p_in p_trace app].
  rewrite write_in_unbounded by exact Hroom.
  unfold parse_response. cbn [p_out p_in p_trace app].
  rewrite Hres, Hgate1. cbn [ret]. rewrite Htime. cbn [lift ret].
  rewrite write_in_unbounded by exact Hroom. cbn [p_out p_in p_trace app].
  rewrite Hres2, Hgate. reflexivity.
Qed.

Lemma preserve_header_gate_passes_to_parser (e : error) :
  preserve_gate cd res2 = false ->
  ParseFileInfos cd res2 = Err e ->
  preserve_handshake cd session cmd passThru (mkPipes out inp [])
  = (mkPipes rest2 inp [EvStart cmd; EvStdin nul; EvStdin nul],
     inl (mkAbort e (Some e))).
Proof.
  unfold preserve_gate in *. intros Hgate Hparse.
  unfold preserve_handshake, bind, start. rewrite Hstart.
  unfold emit, Ack. cbn [p_out p_in p_trace app].
  rewrite write_in_unbounded by exact Hroom.
  unfold parse_response. cbn [p_out p_in p_trace app].
  rewrite Hres, Hgate1. cbn [ret]. rewrite Htime. cbn [lift ret].
  rewrite write_in_unbounded by exact Hroom. cbn [p_out p_in p_trace app].
  rewrite Hres2, Hgate. cbn [ret]. rewrite Hparse. reflexivity.
Qed.

End PreserveCheck.

(** A progress download whose handshake ends early returns the error the
    handshake sent. *)
Lemma progress_call_handshake_abort (a : Client) (tl : list signal)
  (handshake : Session -> M FileInfos) (prog : Program) (sched : list bool)
  (w : Writer) (session : Session) (out : Reader) (inp : Writer)
  (p : Pipes) (ab : abort) (order : list unit_id) :
  NewSession a = Ok session ->
  StdoutPipe session = Ok out ->
  StdinPipe session = Ok inp ->
  handshake session (mkPipes out inp []) = (p, inl ab) ->
  wait [Protocol] (with_client_timeout a caller_ctx) tl = WaitNil order ->
  download_call a tl
    (fun s => progress_unit (handshake s) s prog sched w)
  = mkOutcome (Returns (Some (sent ab)))
      (EvNewSession :: (p_trace p ++ [EvStdinClose]) ++ [EvSessionClose]).
Proof.
  intros Hs Ho Hi Hh Hw. unfold download_call. rewrite Hs.
  unfold progress_unit. rewrite Ho, Hi, Hh, Hw. reflexivity.
Qed.

(** The check of a metadata-preserving download, whatever the codec: on
    the timestamp-line response, and again on the header-line response, it
    ends the transfer with the peer's message exactly when the response is
    flagged by both [IsFailure] and [NoStandardProtocolType]; any other
    response is handed to the line parser, whose error then ends the
    transfer. *)
Lemma preserve_check_needs_both_flags (cd : Codec) (a : Client)
  (tl : list signal) (prog : Program) (sched : list bool) (w : Writer)
  (remotePath : string) (passThru : option PassThru) (session : Session)
  (out rest : Reader) (inp : Writer) (res : Response)
  (order : list unit_id) :
  NewSession a = Ok session ->
  StdoutPipe session = Ok out ->
  StdinPipe session = Ok inp ->
  Start_err session = None ->
  w_room inp = None ->
  ParseResponse cd out = Ok (res, rest) ->
  wait [Protocol] (with_client_timeout a caller_ctx) tl = WaitNil order ->
  let call :=
    CopyFromRemotePreserveProgressPassThru cd a tl prog sched w remotePath
      passThru in
  (preserve_gate cd res = true ->
   result_of call = Returns (Some (ErrNew (GetMessage cd res))) /\
   stdin_writes (trace_of call) = [nul]) /\
  (preserve_gate cd res = false ->
   (forall e, ParseFileTime cd res = Err e ->
              result_of call = Returns (Some e)) /\
   (forall timeInfo res2 rest2,
       ParseFileTime cd res = Ok timeInfo ->
       ParseResponse cd rest = Ok (res2, rest2) ->
       (preserve_gate cd res2 = true ->
        result_of call = Returns (Some (ErrNew (GetMessage cd res2))) /\
        stdin_writes (trace_of call) = [nul; nul]) /\
       (preserve_gate cd res2 = false ->
        forall e, ParseFileInfos cd res2 = Err e ->
                  result_of call = Returns (Some e)))).
Proof.
  intros Hs Ho Hi Hst Hroom Hres Hw call.
  set (cmd := mkCommand (RemoteBinary a) "-f -p" remotePath).
  assert (Hcall : forall p ab,
             preserve_handshake cd session cmd passThru (mkPipes out inp [])
             = (p, inl ab) ->
             call = mkOutcome (Returns (Some (sent ab)))
                      (EvNewSession :: (p_trace p ++ [EvStdinClose])
                                    ++ [EvSessionClose])).
  { intros p ab Hh.
    exact (progress_call_handshake_abort a tl
             (fun s => preserve_handshake cd s cmd passThru)
             prog sched w session out inp p ab order Hs Ho Hi Hh Hw). }
  split.
  - intros Hgate.
    rewrite (Hcall _ _ (preserve_time_gate_aborts cd session cmd passThru
                          out rest inp res Hst Hroom Hres Hgate)).
    split; reflexivity.
  - intros Hgate. split.
    + intros e He.
      now rewrite (Hcall _ _ (preserve_time_gate_passes_to_parser cd session
                                cmd passThru out rest inp res Hst Hroom Hres
                                e Hgate He)).
    + intros timeInfo res2 rest2 Htime Hres2. split.
      * intros Hgate2.
        rewrite (Hcall _ _ (preserve_header_gate_aborts cd session cmd
                              passThru out rest inp res Hst Hroom Hres
                              timeInfo res2 rest2 Hgate Htime Hres2 Hgate2)).
        split; reflexivity.
      * intros Hgate2 e He.
        now rewrite (Hcall _ _ (preserve_header_gate_passes_to_parser cd
                                  session cmd passThru out rest inp res Hst
                                  Hroom Hres timeInfo res2 rest2 Hgate Htime
                                  Hres2 e Hgate2 He)).
Qed.


(** ** The body copy of the progress downloads (C1, C4) *)

(** What a progress download returns depends neither on the destination
    nor on how the copier is scheduled: the copier's result is dropped. *)
Lemma progress_unit_end_ignores_copy (handshake : M FileInfos)
  (session : Session) (prog : Program) (sched sched' : list bool)
  (w w' : Writer) :
  snd (progress_unit handshake session prog sched w)
  = snd (progress_unit handshake session prog sched' w').
Proof.
  unfold progress_unit.
  destruct (StdoutPipe session) as [r|e]; [|reflexivity].
  destruct (StdinPipe session) as [inp|e]; [|reflexivity].
  destruct (handshake (mkPipes r inp [])) as [p [ab|infos]]; [reflexivity|].
  destruct (progress_tail session prog (mkPipes (p_out p) (p_in p) []))
    as [p' [ab|[|]]]; reflexivity.
Qed.

Lemma download_call_result (a : Client) (tl : list signal)
  (u u' : Session -> list event * unit_end) :
  (forall s, snd (u s) = snd (u' s)) ->
  result_of (download_call a tl u) = result_of (download_call a tl u').
Proof.
  intros H. unfold download_call.
  destruct (NewSession a) as [session|e]; [|reflexivity].
  specialize (H session).
  destruct (u session) as [tr fin], (u' session) as [tr' fin'].
  cbn [snd] in H. subst fin'.
  destruct fin as [ch|code].
  - destruct (wait [Protocol] _ tl); [|reflexivity|reflexivity].
    destruct ch; reflexivity.
  - destruct (wait [Protocol] _ _); reflexivity.
Qed.

Lemma progress_result_ignores_copy (cd : Codec) (a : Client)
  (tl : list signal) (prog : Program) (sched sched' : list bool)
  (w w' : Writer) (remotePath : string) (passThru : option PassThru) :
  result_of (CopyFromRemoteProgressPassThru cd a tl prog sched w remotePath
               passThru)
  = result_of (CopyFromRemoteProgressPassThru cd a tl prog sched' w'
                 remotePath passThru) /\
  result_of (CopyFromRemotePreserveProgressPassThru cd a tl prog sched w
               remotePath passThru)
  = result_of (CopyFromRemotePreserveProgressPassThru cd a tl prog sched' w'
                 remotePath passThru).
Proof.
  split; apply download_call_result; intros s;
    apply progress_unit_end_ignores_copy.
Qed.

(** The plain download does report a failed body copy. *)
Lemma plain_download_reports_copy_failure (cd : Codec) (a : Client)
  (tl : list signal) (w : Writer) (remotePath : string)
  (passThru : option PassThru) (session : Session) (out : Reader)
  (inp : Writer) (p1 p2 : Pipes) (infos : FileInfos) (ab : abort)
  (order : list unit_id) :
  NewSession a = Ok session ->
  StdoutPipe session = Ok out ->
  StdinPipe session = Ok inp ->
  download_handshake cd session (mkCommand (RemoteBinary a) "-f" remotePath)
    passThru (mkPipes out inp []) = (p1, inr infos) ->
  CopyN w (Size infos) p1 = (p2, inl ab) ->
  wait [Protocol] (with_client_timeout a caller_ctx) tl = WaitNil order ->
  result_of (CopyFromRemotePassThru cd a tl w remotePath passThru)
  = Returns (Some (sent ab)).
Proof.
  intros Hs Ho Hi Hh Hc Hw.
  unfold CopyFromRemotePassThru, download_call. rewrite Hs.
  unfold download_unit. rewrite Ho, Hi.
  unfold download_protocol. unfold bind at 1. rewrite Hh.
  unfold bind at 1. rewrite Hc, Hw. reflexivity.
Qed.

(** So does the upload. *)
Lemma upload_reports_copy_failure (cd : Codec) (a : Client)
  (tl : list signal) (r : Reader) (remotePath permissions : string)
  (size : Z) (passThru : option PassThru) (session : Session)
  (stdout rest : Reader) (w : Writer) (res : Response) (p2 : Pipes)
  (ab : abort) (order : list unit_id) :
  NewSession a = Ok session ->
  StdoutPipe session = Ok stdout ->
  StdinPipe session = Ok w ->
  Start_err session = None ->
  w_room w = None ->
  ParseResponse cd stdout = Ok (res, rest) ->
  IsFailure cd res = false ->
  io_Copy (apply_passThru passThru r size)
    (mkPipes rest w
       [EvNewSession; EvStart (mkCommand (RemoteBinary a) "-qt" remotePath);
        EvStdin (header permissions size (Base remotePath))])
  = (p2, inl ab) ->
  wait [Protocol; ExitWaiter] (with_client_timeout a caller_ctx) tl
  = WaitNil order ->
  exists e,
    result_of (CopyPassThru cd a tl r remotePath permissions size passThru)
    = Returns (Some e).
Proof.
  intros Hs Ho Hi Hst Hroom Hres Hok Hc Hw.
  unfold CopyPassThru. rewrite Hs, Ho, Hi, Hst.
  unfold upload_unit, upload_protocol. unfold bind at 1.
  rewrite write_in_unbounded by exact Hroom.
  unfold bind at 1. unfold checkResponse, bind at 1, parse_response.
  cbn [p_out p_in p_trace app]. rewrite Hres, Hok. cbn [ret].
  unfold bind at 1. rewrite Hc, Hw. cbn [result_of].
  destruct (wait_two_orders _ _ _ Hw) as [-> | ->]; cbn [flat_map app].
  - eexists. reflexivity.
  - unfold exit_unit. destruct (Wait_err session); eexists; reflexivity.
Qed.

(** C1 fails in the progress downloads: [go pw.Start()] lets the body copy
    run beside the goroutine that writes the final ack. Here the header
    declares five bytes and the scheduler lets that goroutine move first:
    the final ack is written when the destination has received nothing,
    in the progress download (third ack) and in the metadata-preserving
    one (fourth ack); the plain download on the same stream writes it
    after the five bytes. *)
Theorem progress_download_acks_before_body :
  let sched := [true; false; false; false; false; false; false] in
  CopyFromRemoteProgressPassThru SpecCodec.codec
    (scripted_client download_script None) [SigDone Protocol]
    (mkProgram None) sched open_sink "test.txt" None
  = mkOutcome (Returns None)
      [EvNewSession; EvStart (mkCommand "scp" "-f" "test.txt");
       EvStdin nul; EvStdin nul; EvStdin nul;
       EvProgress 2 5; EvSink "he"; EvProgress 4 5; EvSink "ll";
       EvProgress 5 5; EvSink "o"; EvStdinClose; EvSessionClose] /\
  delivered_before_ack 3 0
    (trace_of (CopyFromRemoteProgressPassThru SpecCodec.codec
                 (scripted_client download_script None) [SigDone Protocol]
                 (mkProgram None) sched open_sink "test.txt" None))
  = Some 0%nat /\
  delivered_before_ack 4 0
    (trace_of (CopyFromRemotePreserveProgressPassThru SpecCodec.codec
                 (scripted_client preserve_script None) [SigDone Protocol]
                 (mkProgram None) sched open_sink "test.txt" None))
  = Some 0%nat /\
  delivered_before_ack 3 0
    (trace_of (CopyFromRemotePassThru SpecCodec.codec
                 (scripted_client download_script None) [SigDone Protocol]
                 open_sink "test.txt" None))
  = Some 5%nat.
Proof.
  cbv zeta. repeat split; vm_compute; reflexivity.
Qed.

(** C4 fails in the progress downloads: the error of the body copy goes to
    the display and is not sent on [errCh]. Here the destination takes no
    byte: the copy fails on its first write and both progress downloads
    return nil; the plain download on the same stream returns the write
    error. *)
Theorem progress_download_drops_copy_error :
  CopyFromRemoteProgressPassThru SpecCodec.codec
    (scripted_client download_script None) [SigDone Protocol]
    (mkProgram None) [false; false; false] full_sink "test.txt" None
  = mkOutcome (Returns None)
      [EvNewSession; EvStart (mkCommand "scp" "-f" "test.txt");
       EvStdin nul; EvStdin nul;
       EvProgress 2 5; EvSink "";
       EvProgressErr (ErrTransport "no space left on device");
       EvStdin nul; EvStdinClose; EvSessionClose] /\
  result_of
    (CopyFromRemotePreserveProgressPassThru SpecCodec.codec
       (scripted_client preserve_script None) [SigDone Protocol]
       (mkProgram None) [false; false; false] full_sink "test.txt" None)
  = Returns None /\
  result_of
    (CopyFromRemotePassThru SpecCodec.codec
       (scripted_client download_script None) [SigDone Protocol]
       full_sink "test.txt" None)
  = Returns (Some (ErrTransport "no space left on device")).
Proof.
  repeat split; vm_compute; reflexivity.
Qed.

(** ** The plain download, for comparison *)

Lemma write_nul_cases (w : Writer) (acc : string) (w' : Writer) (oe : option error) :
  write w nul = (acc, w', oe) ->
  (oe = None /\ acc = nul) \/ (oe <> None /\ acc = "").
Proof.
  unfold write. destruct (w_room w) as [k|].
  - destruct k as [|k]; cbn; intros [= <- <- <-]; [right | left]; split; congruence || reflexivity.
  - intros [= <- <- <-]. now left.
Qed.

Lemma length_take (n : nat) (s : string) :
  (n <= String.length s)%nat -> String.length (take n s) = n.
Proof.
  revert s. induction n as [|n IH]; intros [|a s] H; cbn in *; try lia.
  now rewrite IH by lia.
Qed.

Lemma write_ok_all (w : Writer) (s acc : string) (w' : Writer) :
  write w s = (acc, w', None) -> acc = s.
Proof.
  unfold write. destruct (w_room w) as [k|].
  - destruct (String.length s <=? k)%nat; intros [= <- <-]; reflexivity || discriminate.
  - now intros [= <- <-].
Qed.

Lemma delivered_before_ack_close (t : list event) :
  forall k seen,
    delivered_before_ack k seen (t ++ [EvSessionClose])
    = delivered_before_ack k seen t.
Proof.
  induction t as [|ev t IH]; intros k seen; [reflexivity|].
  destruct ev; cbn [app delivered_before_ack]; try apply IH.
  destruct (String.eqb bytes nul); [|apply IH].
  destruct k as [|[|k]]; try reflexivity. apply IH.
Qed.

(** The events of a download call are those of its goroutine, whatever the
    harness sees; the session is closed at the end unless the process
    exits. *)
Lemma download_call_trace (a : Client) (tl : list signal)
  (u : Session -> list event * unit_end) (session : Session) :
  NewSession a = Ok session ->
  trace_of (download_call a tl u)
  = (EvNewSession :: fst (u session) ++ [EvSessionClose])%list \/
  (trace_of (download_call a tl u) = EvNewSession :: fst (u session) /\
   exists code, result_of (download_call a tl u) = Exits code).
Proof.
  intros Hs. unfold download_call. rewrite Hs.
  destruct (u session) as [tr fin].
  destruct fin as [ch|code].
  - left. destruct (wait _ _ tl); [|reflexivity|reflexivity].
    destruct ch; reflexivity.
  - destruct (wait _ _ _); [right|now left|right];
      (split; [reflexivity | now exists code]).
Qed.

Lemma download_call_acks (a : Client) (tl : list signal)
  (u : Session -> list event * unit_end) (session : Session) (k seen : nat) :
  NewSession a = Ok session ->
  delivered_before_ack k seen (trace_of (download_call a tl u))
  = delivered_before_ack k seen (EvNewSession :: fst (u session)).
Proof.
  intros Hs.
  destruct (download_call_trace a tl u session Hs) as [-> | (-> & _)];
    [|reflexivity].
  change (EvNewSession :: fst (u session) ++ [EvSessionClose])%list
    with ((EvNewSession :: fst (u session)) ++ [EvSessionClose])%list.
  apply delivered_before_ack_close.
Qed.

Lemma download_call_returns_trace (a : Client) (tl : list signal)
  (u : Session -> list event * unit_end) (session : Session)
  (r : option error) :
  NewSession a = Ok session ->
  result_of (download_call a tl u) = Returns r ->
  trace_of (download_call a tl u)
  = (EvNewSession :: fst (u session) ++ [EvSessionClose])%list.
Proof.
  intros Hs Hr.
  destruct (download_call_trace a tl u session Hs) as [H | (_ & code & H)];
    [exact H | congruence].
Qed.

(** X20. The plain download is sequential: when its third ack is written
    the destination has received exactly the size the header declared. *)
Lemma plain_download_acks_after_body (cd : Codec) (a : Client) (tl : list signal) (w : Writer)
  (remotePath : string) (passThru : option PassThru) (n : nat) :
  delivered_before_ack 3 0
    (trace_of (CopyFromRemotePassThru cd a tl w remotePath passThru)) = Some n ->
  exists session out inp p infos,
    NewSession a = Ok session /\ StdoutPipe session = Ok out /\ StdinPipe session = Ok inp /\
    download_handshake cd session (mkCommand (RemoteBinary a) "-f" remotePath)
      passThru (mkPipes out inp []) = (p, inr infos) /\
    n = Z.to_nat (Size infos).
Proof.
  unfold CopyFromRemotePassThru.
  destruct (NewSession a) as [session|e] eqn:Hs; [|unfold download_call; rewrite Hs; discriminate].
  rewrite (download_call_acks a tl _ session 3 0 Hs).
  unfold download_unit.
  destruct (StdoutPipe session) as [out|e] eqn:Ho; [|discriminate].
  destruct (StdinPipe session) as [inp|e] eqn:Hi; [|discriminate].
  intros H.
  exists session, out, inp.
  unfold download_protocol in H. unfold bind at 1 in H.
  destruct (download_handshake cd session _ passThru (mkPipes out inp [])) as [p [ab|infos]] eqn:Hh.
  - exfalso. revert Hh H.
    unfold download_handshake, bind, start, Ack, write_in, parse_response, lift, emit, wrap_reader, fail, fail_message, ret.
    cbn [p_in p_out p_trace app].
    destruct (Start_err session).
    { intros Heq; injection Heq; intros <- <-; cbn; discriminate. }
    cbn [p_in p_out p_trace app].
    destruct (write inp nul) as [[acc1 w1] oe1] eqn:W1.
    destruct (write_nul_cases _ _ _ _ W1) as [[-> ->]|[Hne ->]].
    2:{ destruct oe1; [|congruence]. cbn [p_trace]. intros Heq; injection Heq; intros <- <-; cbn; discriminate. }
    cbn [p_in p_out p_trace app].
    destruct (ParseResponse cd out) as [[res r']|e].
    2:{ intros Heq; injection Heq; intros <- <-; cbn; discriminate. }
    cbn [p_in p_out p_trace app].
    destruct (IsFailure cd res).
    { intros Heq; injection Heq; intros <- <-; cbn; discriminate. }
    destruct (ParseFileInfos cd res) as [i|e].
    2:{ intros Heq; injection Heq; intros <- <-; cbn; discriminate. }
    cbn [p_in p_out p_trace app].
    destruct (write w1 nul) as [[acc2 w2] oe2] eqn:W2.
    destruct (write_nul_cases _ _ _ _ W2) as [[-> ->]|[Hne ->]].
    2:{ destruct oe2; [|congruence]. cbn [p_trace]. intros Heq; injection Heq; intros <- <-; cbn; discriminate. }
    discriminate.
  - exists p, infos. repeat split; try assumption; try reflexivity.
    revert Hh H.
    unfold download_handshake, bind, start, Ack, write_in, parse_response, lift, emit, wrap_reader, fail, fail_message, ret, CopyN, check.
    cbn [p_in p_out p_trace app].
    destruct (Start_err session); [discriminate|].
    cbn [p_in p_out p_trace app].
    destruct (write inp nul) as [[acc1 w1] oe1] eqn:W1.
    destruct (write_nul_cases _ _ _ _ W1) as [[-> ->]|[Hne ->]].
    2:{ destruct oe1; [|congruence]. cbn [p_trace]. discriminate. }
    cbn [p_in p_out p_trace app].
    destruct (ParseResponse cd out) as [[res r']|e]; [|discriminate].
    cbn [p_in p_out p_trace app].
    destruct (IsFailure cd res); [discriminate|].
    destruct (ParseFileInfos cd res) as [i|e]; [|discriminate].
    cbn [p_in p_out p_trace app].
    destruct (write w1 nul) as [[acc2 w2] oe2] eqn:W2.
    destruct (write_nul_cases _ _ _ _ W2) as [[-> ->]|[Hne ->]].
    2:{ destruct oe2; [|congruence]. cbn [p_trace]. discriminate. }
    cbn [p_in p_out p_trace app].
    intros Heq; injection Heq; intros <- <-.
    cbn [p_in p_out p_trace app].
    destruct (write w _) as [[acc w'] oe] eqn:W.
    destruct oe as [e|].
    { cbn. discriminate. }
    apply write_ok_all in W. subst acc.
    destruct (_ <? _)%nat eqn:Hlen.
    { cbn. discriminate. }
    apply Nat.ltb_ge in Hlen.
    cbn [p_in p_out p_trace app].
    destruct (write w2 nul) as [[acc3 w3] oe3] eqn:W3.
    destruct (write_nul_cases _ _ _ _ W3) as [[-> ->]|[Hne ->]].
    2:{ destruct oe3; [|congruence]. cbn. discriminate. }
    destruct (Wait_err session); cbn; intros [= <-];
      now rewrite length_take.
Qed.

(** * Further properties of the client *)

(** ** The harness *)

Lemma wait_from_decided (pre : list signal) :
  forall wg ctx order post,
    wait_from wg ctx pre order <> WaitBlocked ->
    wait_from wg ctx (pre ++ post) order = wait_from wg ctx pre order.
Proof.
  induction pre as [|s pre IH]; intros wg ctx order post H.
  - destruct wg as [|u wg]; [|now elim H].
    cbn [app]. now rewrite !wait_from_nil.
  - destruct wg as [|u wg]; [reflexivity|].
    cbn [app wait_from] in *. destruct s as [v|e| |v].
    + destruct (existsb (unit_eqb v) (u :: wg)); now apply IH.
    + reflexivity.
    + destruct (timer_armed ctx); [reflexivity | now apply IH].
    + destruct (existsb (unit_eqb v) (u :: wg)); now apply IH.
Qed.

(** X1. Once the harness of an upload has decided, by completion or by
    cancellation, what reaches it later changes nothing: the call returns
    the same value with the same events. *)
Theorem upload_decision_is_final (cd : Codec) (a : Client)
  (pre post : list signal) (r : Reader) (remotePath permissions : string)
  (size : Z) (passThru : option PassThru) :
  result_of (CopyPassThru cd a pre r remotePath permissions size passThru)
  <> Blocks ->
  CopyPassThru cd a (pre ++ post) r remotePath permissions size passThru
  = CopyPassThru cd a pre r remotePath permissions size passThru.
Proof.
  unfold CopyPassThru.
  destruct (NewSession a) as [session|e]; [|reflexivity].
  destruct (StdoutPipe session) as [stdout|e]; [|reflexivity].
  destruct (StdinPipe session) as [w|e]; [|reflexivity].
  destruct (Start_err session) as [e|]; [reflexivity|].
  destruct (upload_unit _ _ _ _ _ _) as [tr sends].
  intros H. unfold wait in *. rewrite wait_from_decided; [reflexivity|].
  intros Hb. rewrite Hb in H. now apply H.
Qed.

Lemma upload_decision_is_final_witness :
  CopyPassThru SpecCodec.codec (timed_client upload_script)
    ([SigDone Protocol; SigDone ExitWaiter] ++ [SigTimer; SigCancel ErrCanceled])
    (NewReader "hello") "/tmp/test.txt" "0644" 5 None
  = CopyPassThru SpecCodec.codec (timed_client upload_script)
      [SigDone Protocol; SigDone ExitWaiter]
      (NewReader "hello") "/tmp/test.txt" "0644" 5 None.
Proof.
  apply (upload_decision_is_final SpecCodec.codec (timed_client upload_script)
           [SigDone Protocol; SigDone ExitWaiter]
           [SigTimer; SigCancel ErrCanceled]
           (NewReader "hello") "/tmp/test.txt" "0644" 5 None).
  vm_compute. discriminate.
Defined.

Lemma wait_from_nil_all_done (ctx : Context) (tl : list signal) :
  forall wg order0 order,
    wait_from wg ctx tl order0 = WaitNil order ->
    forall u, In u wg -> In (SigDone u) tl.
Proof.
  induction tl as [|s tl IH]; intros wg order0 order H u Hu.
  - destruct wg; [now elim Hu | discriminate H].
  - destruct wg as [|w0 wg]; [now elim Hu|].
    cbn [wait_from] in H. destruct s as [v|e| |v].
    + destruct (existsb (unit_eqb v) (w0 :: wg)).
      * destruct (unit_eqb v u) eqn:Hvu.
        -- apply unit_eqb_eq in Hvu. subst v. now left.
        -- right. apply (IH _ _ _ H).
           unfold pending_without. apply filter_In. split; [exact Hu|].
           now rewrite Hvu.
      * right. now apply (IH _ _ _ H).
    + discriminate H.
    + destruct (timer_armed ctx); [discriminate H|].
      right. now apply (IH _ _ _ H).
    + right. destruct (existsb (unit_eqb v) (w0 :: wg));
        now apply (IH _ _ _ H).
Qed.

(** X2. [wait] returns nil only when every supervised goroutine has called
    [wg.Done()]: an upload that returns a value drained from [errCh] has
    seen both its goroutines finish, a download its one goroutine. *)
Theorem wait_nil_means_all_done (wg : list unit_id) (ctx : Context)
  (tl : list signal) (order : list unit_id) :
  wait wg ctx tl = WaitNil order ->
  forall u, In u wg -> In (SigDone u) tl.
Proof. unfold wait. apply wait_from_nil_all_done. Qed.

Lemma wait_nil_means_all_done_witness :
  In (SigDone ExitWaiter) [SigDone Protocol; SigTimer; SigDone ExitWaiter].
Proof.
  apply (wait_nil_means_all_done [Protocol; ExitWaiter] caller_ctx
           [SigDone Protocol; SigTimer; SigDone ExitWaiter]
           [Protocol; ExitWaiter] eq_refl ExitWaiter).
  right. left. reflexivity.
Defined.

Lemma wait_from_without_timer (ctx : Context) (tl : list signal) :
  timer_armed ctx = false ->
  forall wg order,
    wait_from wg ctx tl order = wait_from wg ctx (without_timer tl) order.
Proof.
  intros Hctx. induction tl as [|s tl IH]; intros wg order; [reflexivity|].
  destruct wg as [|u wg]; [now rewrite !wait_from_nil|].
  destruct s as [v|e| |v]; cbn [without_timer filter wait_from].
  - fold (without_timer tl).
    destruct (existsb (unit_eqb v) (u :: wg)); apply IH.
  - reflexivity.
  - fold (without_timer tl). rewrite Hctx. apply IH.
  - fold (without_timer tl).
    destruct (existsb (unit_eqb v) (u :: wg)); apply IH.
Qed.

Lemma client_timeout_off (a : Client) :
  Timeout a <= 0 -> timer_armed (with_client_timeout a caller_ctx) = false.
Proof.
  intros H. unfold with_client_timeout.
  destruct (0 <? Timeout a) eqn:Ht; [apply Z.ltb_lt in Ht; lia|reflexivity].
Qed.

Lemma never_done_without_timer (u : unit_id) (tl : list signal) :
  never_done u (without_timer tl) = without_timer (never_done u tl).
Proof.
  unfold never_done, without_timer.
  induction tl as [|s tl IH]; [reflexivity|].
  destruct s as [v|e| |v]; cbn [filter]; rewrite ?IH; try reflexivity;
    destruct (negb (unit_eqb u v)); cbn [filter]; now rewrite ?IH.
Qed.

Lemma download_call_without_timer (a : Client) (tl : list signal)
  (u : Session -> list event * unit_end) :
  Timeout a <= 0 ->
  download_call a tl u = download_call a (without_timer tl) u.
Proof.
  intros H. unfold download_call.
  destruct (NewSession a) as [session|e]; [|reflexivity].
  destruct (u session) as [tr fin]. unfold wait.
  rewrite never_done_without_timer.
  rewrite (wait_from_without_timer _ tl (client_timeout_off a H)).
  now rewrite (wait_from_without_timer _ (never_done Protocol tl)
                 (client_timeout_off a H)).
Qed.

(** X3. A [Timeout] that is zero or negative sets no deadline: every
    transfer call behaves as if the timer never fired. *)
Theorem nonpositive_timeout_sets_no_deadline (cd : Codec) (a : Client)
  (tl : list signal) :
  Timeout a <= 0 ->
  (forall r remotePath permissions size passThru,
      CopyPassThru cd a tl r remotePath permissions size passThru
      = CopyPassThru cd a (without_timer tl) r remotePath permissions size
          passThru) /\
  (forall w remotePath passThru,
      CopyFromRemotePassThru cd a tl w remotePath passThru
      = CopyFromRemotePassThru cd a (without_timer tl) w remotePath passThru) /\
  (forall prog sched w remotePath passThru,
      CopyFromRemoteProgressPassThru cd a tl prog sched w remotePath passThru
      = CopyFromRemoteProgressPassThru cd a (without_timer tl) prog sched w
          remotePath passThru /\
      CopyFromRemotePreserveProgressPassThru cd a tl prog sched w remotePath
        passThru
      = CopyFromRemotePreserveProgressPassThru cd a (without_timer tl) prog
          sched w remotePath passThru).
Proof.
  intros H. split; [|split].
  - intros r remotePath permissions size passThru. unfold CopyPassThru.
    destruct (NewSession a) as [session|e]; [|reflexivity].
    destruct (StdoutPipe session) as [stdout|e]; [|reflexivity].
    destruct (StdinPipe session) as [w|e]; [|reflexivity].
    destruct (Start_err session) as [e|]; [reflexivity|].
    destruct (upload_unit _ _ _ _ _ _) as [tr sends]. unfold wait.
    now rewrite (wait_from_without_timer _ tl (client_timeout_off a H)).
  - intros w remotePath passThru.
    now apply download_call_without_timer.
  - intros prog sched w remotePath passThru.
    split; now apply download_call_without_timer.
Qed.

Lemma nonpositive_timeout_sets_no_deadline_witness :
  CopyPassThru SpecCodec.codec (scripted_client upload_script None)
    [SigTimer; SigDone Protocol; SigTimer; SigDone ExitWaiter]
    (NewReader "hello") "/tmp/test.txt" "0644" 5 None
  = CopyPassThru SpecCodec.codec (scripted_client upload_script None)
      (without_timer [SigTimer; SigDone Protocol; SigTimer; SigDone ExitWaiter])
      (NewReader "hello") "/tmp/test.txt" "0644" 5 None.
Proof.
  apply (proj1 (nonpositive_timeout_sets_no_deadline SpecCodec.codec
                  (scripted_client upload_script None)
                  [SigTimer; SigDone Protocol; SigTimer; SigDone ExitWaiter]
                  ltac:(cbn; lia))).
Defined.

(** X4. When both goroutines of an upload send an error on [errCh], the
    call returns the error that was sent first and drops the other:
    [order] is the order of the sends, whichever goroutine finishes
    first. *)
Theorem upload_first_error_wins (cd : Codec) (a : Client) (tl : list signal)
  (r : Reader) (remotePath permissions : string) (size : Z)
  (passThru : option PassThru) (session : Session) (stdout : Reader)
  (w : Writer) (tr : list event) (ep ew : error) (order : list unit_id) :
  NewSession a = Ok session ->
  StdoutPipe session = Ok stdout ->
  StdinPipe session = Ok w ->
  Start_err session = None ->
  upload_unit cd (apply_passThru passThru r size) permissions size
    (Base remotePath)
    (mkPipes stdout w
       [EvNewSession; EvStart (mkCommand (RemoteBinary a) "-qt" remotePath)])
  = (tr, [Some ep]) ->
  Wait_err session = Some ew ->
  wait [Protocol; ExitWaiter] (with_client_timeout a caller_ctx) tl
  = WaitNil order ->
  (order = [Protocol; ExitWaiter] /\
   result_of (CopyPassThru cd a tl r remotePath permissions size passThru)
   = Returns (Some ep)) \/
  (order = [ExitWaiter; Protocol] /\
   result_of (CopyPassThru cd a tl r remotePath permissions size passThru)
   = Returns (Some ew)).
Proof.
  intros Hs Ho Hi Hst Hu Hexit Hw.
  unfold CopyPassThru. rewrite Hs, Ho, Hi, Hst, Hu, Hw.
  cbn [result_of]. unfold exit_unit. rewrite Hexit.
  destruct (wait_two_orders _ _ _ Hw) as [-> | ->]; [left | right];
    split; reflexivity.
Qed.

Lemma upload_first_error_wins_witness :
  ([Protocol; ExitWaiter] = [Protocol; ExitWaiter] /\
   result_of (CopyPassThru SpecCodec.codec
                (scripted_client failure_script (Some (ErrProcess 1)))
                [SigSent Protocol; SigDone ExitWaiter; SigDone Protocol]
                (NewReader "hello") "/tmp/test.txt" "0644" 5 None)
   = Returns (Some (ErrNew "no space"))) \/
  ([Protocol; ExitWaiter] = [ExitWaiter; Protocol] /\
   result_of (CopyPassThru SpecCodec.codec
                (scripted_client failure_script (Some (ErrProcess 1)))
                [SigSent Protocol; SigDone ExitWaiter; SigDone Protocol]
                (NewReader "hello") "/tmp/test.txt" "0644" 5 None)
   = Returns (Some (ErrProcess 1))).
Proof.
  apply (upload_first_error_wins SpecCodec.codec
           (scripted_client failure_script (Some (ErrProcess 1)))
           [SigSent Protocol; SigDone ExitWaiter; SigDone Protocol]
           (NewReader "hello") "/tmp/test.txt" "0644" 5 None
           (scripted_session failure_script (Some (ErrProcess 1)))
           (mkReader failure_script None)
           (mkWriter None (ErrTransport "write on closed pipe"))
           [EvNewSession; EvStart (mkCommand "scp" "-qt" "/tmp/test.txt");
            EvStdin (header "0644" 5 "test.txt"); EvStdinClose]
           (ErrNew "no space") (ErrProcess 1) [Protocol; ExitWaiter]
           eq_refl eq_refl eq_refl eq_refl eq_refl eq_refl eq_refl).
Defined.

(** X5. No goroutine ever blocks on [errCh], and the receive after [wait]
    always finds a value: the two goroutines of an upload send at most two
    errors in all on a channel of capacity two; the goroutine of a
    download sends one or two values on a channel of capacity four, or
    ends the process with status 1. *)
Theorem errCh_never_blocks :
  (forall cd r permissions size filename p session,
      (List.length (snd (upload_unit cd r permissions size filename p))
       + List.length (exit_unit session) <= 2)%nat) /\
  (forall cd session cmd w passThru,
      exists ch, snd (download_unit cd session cmd w passThru) = Sent ch /\
                 (1 <= List.length ch <= 4)%nat) /\
  (forall handshake session prog sched w,
      snd (progress_unit handshake session prog sched w) = OsExit 1 \/
      exists ch, snd (progress_unit handshake session prog sched w) = Sent ch /\
                 (1 <= List.length ch <= 4)%nat).
Proof.
  split; [|split].
  - intros cd r permissions size filename p session.
    unfold upload_unit, exit_unit.
    destruct (upload_protocol _ _ _ _ _ _) as [p' [ab|[]]];
      destruct (Wait_err session); cbn; lia.
  - intros cd session cmd w passThru. unfold download_unit.
    destruct (StdoutPipe session) as [r|e];
      [|eexists; split; [reflexivity | cbn; lia]].
    destruct (StdinPipe session) as [inp|e];
      [|eexists; split; [reflexivity | cbn; lia]].
    destruct (download_protocol _ _ _ _ _ _) as [p [ab|[]]];
      eexists; (split; [reflexivity | cbn; lia]).
  - intros handshake session prog sched w. unfold progress_unit.
    destruct (StdoutPipe session) as [r|e];
      [|right; eexists; split; [reflexivity | cbn; lia]].
    destruct (StdinPipe session) as [inp|e];
      [|right; eexists; split; [reflexivity | cbn; lia]].
    destruct (handshake _) as [p [ab|infos]];
      [right; eexists; split; [reflexivity | cbn; lia]|].
    destruct (progress_tail _ _ _) as [p' [ab|[|]]];
      [right; eexists; split; [reflexivity | cbn; lia]
      | now left
      | right; eexists; split; [reflexivity | cbn; lia]].
Qed.

(** ** Where an upload stops *)

(** X6. When the setup of an upload fails (no session, no pipe, or [Start]
    fails) the call returns an error at once, whatever the context does,
    and nothing is written to the session. *)
Theorem upload_setup_failure (cd : Codec) (a : Client) (tl tl' : list signal)
  (r : Reader) (remotePath permissions : string) (size : Z)
  (passThru : option PassThru) :
  upload_setup_fails a ->
  CopyPassThru cd a tl r remotePath permissions size passThru
  = CopyPassThru cd a tl' r remotePath permissions size passThru /\
  stdin_writes
    (trace_of (CopyPassThru cd a tl r remotePath permissions size passThru))
  = [] /\
  exists e,
    result_of (CopyPassThru cd a tl r remotePath permissions size passThru)
    = Returns (Some e).
Proof.
  unfold upload_setup_fails, CopyPassThru.
  destruct (NewSession a) as [session|e];
    [|intros _; repeat split; eexists; reflexivity].
  destruct (StdoutPipe session) as [stdout|e];
    [|intros _; repeat split; eexists; reflexivity].
  destruct (StdinPipe session) as [w|e];
    [|intros _; repeat split; eexists; reflexivity].
  destruct (Start_err session) as [e|];
    [intros _; repeat split; eexists; reflexivity | intros []].
Qed.

Lemma upload_setup_failure_witness :
  CopyPassThru SpecCodec.codec
    (mkClient 0 "scp" (Err (ErrTransport "connection lost")))
    [SigCancel ErrCanceled] (NewReader "hello") "/tmp/test.txt" "0644" 5 None
  = CopyPassThru SpecCodec.codec
      (mkClient 0 "scp" (Err (ErrTransport "connection lost")))
      [SigDone Protocol; SigDone ExitWaiter] (NewReader "hello")
      "/tmp/test.txt" "0644" 5 None /\
  stdin_writes
    (trace_of (CopyPassThru SpecCodec.codec
                 (mkClient 0 "scp" (Err (ErrTransport "connection lost")))
                 [SigCancel ErrCanceled] (NewReader "hello") "/tmp/test.txt"
                 "0644" 5 None))
  = [] /\
  exists e,
    result_of (CopyPassThru SpecCodec.codec
                 (mkClient 0 "scp" (Err (ErrTransport "connection lost")))
                 [SigCancel ErrCanceled] (NewReader "hello") "/tmp/test.txt"
                 "0644" 5 None)
    = Returns (Some e).
Proof.
  apply (upload_setup_failure SpecCodec.codec
           (mkClient 0 "scp" (Err (ErrTransport "connection lost")))
           [SigCancel ErrCanceled] [SigDone Protocol; SigDone ExitWaiter]
           (NewReader "hello") "/tmp/test.txt" "0644" 5 None).
  exact I.
Defined.

(** X7. When the session's input does not take the whole header line, the
    upload goroutine sends the writer's error after the part that was
    taken and stops: it writes nothing more, and it reads no response, the
    session's output being left as it was. *)
Theorem upload_stops_on_header_write_error (cd : Codec) (r : Reader)
  (permissions : string) (size : Z) (filename : string) (p : Pipes)
  (k : nat) :
  w_room (p_in p) = Some k ->
  (k < String.length (header permissions size filename))%nat ->
  upload_unit cd r permissions size filename p
  = ((p_trace p ++ [EvStdin (take k (header permissions size filename));
                    EvStdinClose])%list,
     [Some (w_fail (p_in p))]) /\
  p_out (fst (upload_protocol cd r permissions size filename p)) = p_out p.
Proof.
  intros Hroom Hk.
  unfold upload_unit, upload_protocol, bind, write_in, write.
  rewrite Hroom.
  destruct (String.length (header permissions size filename) <=? k)%nat
    eqn:Hle; [apply Nat.leb_le in Hle; lia|].
  cbn [p_trace p_out fst sent]. split; [|reflexivity].
  now rewrite <- app_assoc.
Qed.

Lemma upload_stops_on_header_write_error_witness :
  upload_unit SpecCodec.codec (NewReader "hello") "0644" 5 "test.txt"
    (mkPipes (mkReader upload_script None)
             (mkWriter (Some 3%nat) (ErrTransport "write on closed pipe")) [])
  = (([] ++ [EvStdin (take 3 (header "0644" 5 "test.txt")); EvStdinClose])%list,
     [Some (ErrTransport "write on closed pipe")]) /\
  p_out (fst (upload_protocol SpecCodec.codec (NewReader "hello") "0644" 5
                "test.txt"
                (mkPipes (mkReader upload_script None)
                   (mkWriter (Some 3%nat)
                      (ErrTransport "write on closed pipe")) [])))
  = mkReader upload_script None.
Proof.
  apply (upload_stops_on_header_write_error SpecCodec.codec
           (NewReader "hello") "0644" 5 "test.txt"
           (mkPipes (mkReader upload_script None)
              (mkWriter (Some 3%nat) (ErrTransport "write on closed pipe")) [])
           3%nat eq_refl).
  vm_compute. lia.
Defined.

(** X8. When reading the response to the header fails, the upload
    goroutine records the read error unchanged, having written the header
    line and nothing else. *)
Theorem upload_stops_on_response_read_error (cd : Codec) (r : Reader)
  (permissions : string) (size : Z) (filename : string) (p : Pipes)
  (e : error) :
  accepts (p_in p) (header permissions size filename) = true ->
  ParseResponse cd (p_out p) = Err e ->
  upload_unit cd r permissions size filename p
  = ((p_trace p ++ [EvStdin (header permissions size filename);
                    EvStdinClose])%list,
     [Some e]).
Proof.
  intros Hacc Hres.
  destruct (write_in_accepts p _ Hacc) as (w' & Hw).
  unfold upload_unit, upload_protocol, bind. rewrite Hw.
  unfold checkResponse, bind, parse_response. cbn [p_out p_in p_trace].
  rewrite Hres. cbn [p_trace sent]. now rewrite <- app_assoc.
Qed.

Lemma upload_stops_on_response_read_error_witness :
  upload_unit SpecCodec.codec (NewReader "hello") "0644" 5 "test.txt"
    (mkPipes (mkReader "" None)
             (mkWriter None (ErrTransport "write on closed pipe")) [])
  = (([] ++ [EvStdin (header "0644" 5 "test.txt"); EvStdinClose])%list,
     [Some ErrEOF]).
Proof.
  apply (upload_stops_on_response_read_error SpecCodec.codec
           (NewReader "hello") "0644" 5 "test.txt"
           (mkPipes (mkReader "" None)
              (mkWriter None (ErrTransport "write on closed pipe")) [])
           ErrEOF eq_refl eq_refl).
Defined.

(** X9. When the source fails while it is being copied, the upload
    goroutine has written every byte the source delivered before failing,
    records the source's error, and never writes the terminator. *)
Theorem upload_stops_on_source_error (cd : Codec) (r : Reader)
  (permissions : string) (size : Z) (filename : string) (p : Pipes)
  (res : Response) (rest : Reader) (e : error) :
  w_room (p_in p) = None ->
  ParseResponse cd (p_out p) = Ok (res, rest) ->
  IsFailure cd res = false ->
  r_err r = Some e ->
  upload_unit cd r permissions size filename p
  = ((p_trace p ++ [EvStdin (header permissions size filename);
                    EvStdin (r_data r); EvStdinClose])%list,
     [Some e]).
Proof.
  intros Hroom Hres Hok Herr.
  unfold upload_unit, upload_protocol, bind.
  rewrite (write_in_unbounded p _ Hroom).
  unfold checkResponse at 1, bind, parse_response. cbn [p_out p_in p_trace].
  rewrite Hres, Hok. cbn [ret].
  unfold io_Copy, bind.
  rewrite write_in_unbounded by exact Hroom. cbn [p_out p_in p_trace].
  rewrite Herr. cbn [check fail p_trace sent].
  now rewrite <- !app_assoc.
Qed.

Lemma upload_stops_on_source_error_witness :
  upload_unit SpecCodec.codec
    (mkReader "hel" (Some (ErrTransport "read: input/output error")))
    "0644" 5 "test.txt"
    (mkPipes (mkReader upload_script None)
             (mkWriter None (ErrTransport "write on closed pipe")) [])
  = (([] ++ [EvStdin (header "0644" 5 "test.txt"); EvStdin "hel";
             EvStdinClose])%list,
     [Some (ErrTransport "read: input/output error")]).
Proof.
  apply (upload_stops_on_source_error SpecCodec.codec
           (mkReader "hel" (Some (ErrTransport "read: input/output error")))
           "0644" 5 "test.txt"
           (mkPipes (mkReader upload_script None)
              (mkWriter None (ErrTransport "write on closed pipe")) [])
           (mkResponse NUL "") (mkReader nul None)
           (ErrTransport "read: input/output error")
           eq_refl eq_refl eq_refl eq_refl).
Defined.

(** X10. When the response to the terminator signals a failure, the
    upload goroutine records an error with the peer's message; header,
    body and terminator have all been written by then. *)
Theorem upload_reports_final_failure (cd : Codec) (r : Reader)
  (permissions : string) (size : Z) (filename : string) (p : Pipes)
  (res : Response) (rest : Reader) (res2 : Response) (rest2 : Reader) :
  w_room (p_in p) = None ->
  ParseResponse cd (p_out p) = Ok (res, rest) ->
  IsFailure cd res = false ->
  r_err r = None ->
  ParseResponse cd rest = Ok (res2, rest2) ->
  IsFailure cd res2 = true ->
  upload_unit cd r permissions size filename p
  = ((p_trace p ++ [EvStdin (header permissions size filename);
                    EvStdin (r_data r); EvStdin nul; EvStdinClose])%list,
     [Some (ErrNew (GetMessage cd res2))]).
Proof.
  intros Hroom Hres Hok Heof Hres2 Hfail.
  unfold upload_unit, upload_protocol, bind.
  rewrite (write_in_unbounded p _ Hroom).
  unfold checkResponse at 1, bind, parse_response. cbn [p_out p_in p_trace].
  rewrite Hres, Hok. cbn [ret].
  unfold io_Copy, bind.
  rewrite write_in_unbounded by exact Hroom. cbn [p_out p_in p_trace].
  rewrite Heof. cbn [check ret].
  rewrite write_in_unbounded by exact Hroom. cbn [p_out p_in p_trace].
  unfold checkResponse, bind, parse_response. cbn [p_out p_in p_trace].
  rewrite Hres2, Hfail. cbn [fail p_trace sent].
  now rewrite <- !app_assoc.
Qed.

Lemma upload_reports_final_failure_witness :
  upload_unit SpecCodec.codec (NewReader "hello") "0644" 5 "test.txt"
    (mkPipes (mkReader (nul ++ failure_script) None)
             (mkWriter None (ErrTransport "write on closed pipe")) [])
  = (([] ++ [EvStdin (header "0644" 5 "test.txt"); EvStdin "hello";
             EvStdin nul; EvStdinClose])%list,
     [Some (ErrNew "no space")]).
Proof.
  apply (upload_reports_final_failure SpecCodec.codec (NewReader "hello")
           "0644" 5 "test.txt"
           (mkPipes (mkReader (nul ++ failure_script) None)
              (mkWriter None (ErrTransport "write on closed pipe")) [])
           (mkResponse NUL "") (mkReader failure_script None)
           (mkResponse "002" "no space") (mkReader "" None)
           eq_refl eq_refl eq_refl eq_refl eq_refl eq_refl).
Defined.

(** ** What a nil result of an upload guarantees *)

Lemma upload_unit_sends (cd : Codec) (r : Reader) (permissions : string)
  (size : Z) (filename : string) (p : Pipes) :
  snd (upload_unit cd r permissions size filename p) = [] \/
  exists e, snd (upload_unit cd r permissions size filename p) = [Some e].
Proof.
  unfold upload_unit.
  destruct (upload_protocol _ _ _ _ _ _) as [p' [ab|u]]; cbn [snd];
    [right; eexists; reflexivity | now left].
Qed.

(** The upload goroutine that sends nothing on [errCh] has run the whole
    exchange. *)
Lemma upload_unit_silent (cd : Codec) (r : Reader) (permissions : string)
  (size : Z) (filename : string) (p : Pipes) (tr : list event) :
  upload_unit cd r permissions size filename p = (tr, []) ->
  exists res1 rest1 res2 rest2,
    ParseResponse cd (p_out p) = Ok (res1, rest1) /\
    IsFailure cd res1 = false /\
    r_err r = None /\
    ParseResponse cd rest1 = Ok (res2, rest2) /\
    IsFailure cd res2 = false /\
    tr = (p_trace p ++ [EvStdin (header permissions size filename);
                        EvStdin (r_data r); EvStdin nul; EvStdinClose])%list.
Proof.
  unfold upload_unit, upload_protocol, bind, write_in, checkResponse, bind,
    parse_response, io_Copy, bind, write_in, check, fail, ret.
  destruct (write (p_in p) (header permissions size filename))
    as [[acc1 w1] [e1|]] eqn:W1; [discriminate|].
  apply write_ok_all in W1. subst acc1. cbn [p_out p_in p_trace].
  destruct (ParseResponse cd (p_out p)) as [[res1 rest1]|e] eqn:P1;
    [|discriminate].
  cbn [p_out p_in p_trace].
  destruct (IsFailure cd res1) eqn:F1; [discriminate|].
  cbn [p_out p_in p_trace].
  destruct (write w1 (r_data r)) as [[acc2 w2] [e2|]] eqn:W2; [discriminate|].
  apply write_ok_all in W2. subst acc2. cbn [p_out p_in p_trace].
  destruct (r_err r) as [e|] eqn:E1; [discriminate|].
  cbn [p_out p_in p_trace].
  destruct (write w2 nul) as [[acc3 w3] [e3|]] eqn:W3; [discriminate|].
  apply write_ok_all in W3. subst acc3. cbn [p_out p_in p_trace].
  destruct (ParseResponse cd rest1) as [[res2 rest2]|e] eqn:P2;
    [|discriminate].
  cbn [p_out p_in p_trace].
  destruct (IsFailure cd res2) eqn:F2; [discriminate|].
  cbn [p_trace]. intros [= <-].
  exists res1, rest1, res2, rest2.
  repeat split; try assumption. rewrite <- ?app_assoc. reflexivity.
Qed.

(** X11. An upload that returns nil has run the whole exchange: the
    session was set up, the header line, every byte of the source up to its
    end and the terminator were written, both responses were read and
    neither was a failure, and the remote command exited without error. *)
Theorem upload_nil_means_complete (cd : Codec) (a : Client)
  (tl : list signal) (r : Reader) (remotePath permissions : string)
  (size : Z) (passThru : option PassThru) :
  result_of (CopyPassThru cd a tl r remotePath permissions size passThru)
  = Returns None ->
  exists session stdout w res1 rest1 res2 rest2,
    NewSession a = Ok session /\
    StdoutPipe session = Ok stdout /\
    StdinPipe session = Ok w /\
    Start_err session = None /\
    Wait_err session = None /\
    ParseResponse cd stdout = Ok (res1, rest1) /\
    IsFailure cd res1 = false /\
    ParseResponse cd rest1 = Ok (res2, rest2) /\
    IsFailure cd res2 = false /\
    r_err (apply_passThru passThru r size) = None /\
    stdin_writes
      (trace_of (CopyPassThru cd a tl r remotePath permissions size passThru))
    = [header permissions size (Base remotePath);
       r_data (apply_passThru passThru r size); nul].
Proof.
  unfold CopyPassThru.
  destruct (NewSession a) as [session|e]; [|discriminate].
  destruct (StdoutPipe session) as [stdout|e] eqn:Ho; [|discriminate].
  destruct (StdinPipe session) as [w|e] eqn:Hi; [|discriminate].
  destruct (Start_err session) as [e|] eqn:Hst; [discriminate|].
  pose proof (upload_unit_sends cd (apply_passThru passThru r size)
                permissions size (Base remotePath)
                (mkPipes stdout w
                   [EvNewSession;
                    EvStart (mkCommand (RemoteBinary a) "-qt" remotePath)]))
    as Hsends.
  destruct (upload_unit _ _ _ _ _ _) as [tr sends] eqn:Hu. cbn [snd] in Hsends.
  destruct (wait _ _ tl) as [order| |] eqn:Hw; try discriminate.
  cbn [result_of trace_of]. intros H.
  assert (Hboth : sends = [] /\ Wait_err session = None).
  { injection H as H. unfold exit_unit in H.
    destruct (wait_two_orders _ _ _ Hw) as [-> | ->]; cbn [flat_map app] in H;
      destruct Hsends as [-> | (e & ->)];
      destruct (Wait_err session); cbn in H; try discriminate; now split. }
  destruct Hboth as [-> Hexit].
  destruct (upload_unit_silent _ _ _ _ _ _ _ Hu)
    as (res1 & rest1 & res2 & rest2 & H1 & H2 & H3 & H4 & H5 & ->).
  exists session, stdout, w, res1, rest1, res2, rest2.
  cbn [p_out p_trace] in *. repeat split; try assumption.
Qed.

Lemma upload_nil_means_complete_witness :
  exists session stdout w res1 rest1 res2 rest2,
    NewSession (scripted_client upload_script None) = Ok session /\
    StdoutPipe session = Ok stdout /\
    StdinPipe session = Ok w /\
    Start_err session = None /\
    Wait_err session = None /\
    SpecCodec.ParseResponse stdout = Ok (res1, rest1) /\
    SpecCodec.IsFailure res1 = false /\
    SpecCodec.ParseResponse rest1 = Ok (res2, rest2) /\
    SpecCodec.IsFailure res2 = false /\
    r_err (apply_passThru None (NewReader "hello") 5) = None /\
    stdin_writes
      (trace_of (CopyPassThru SpecCodec.codec
                   (scripted_client upload_script None)
                   [SigDone ExitWaiter; SigDone Protocol] (NewReader "hello")
                   "/tmp/test.txt" "0644" 5 None))
    = [header "0644" 5 (Base "/tmp/test.txt");
       r_data (apply_passThru None (NewReader "hello") 5); nul].
Proof.
  apply (upload_nil_means_complete SpecCodec.codec
           (scripted_client upload_script None)
           [SigDone ExitWaiter; SigDone Protocol] (NewReader "hello")
           "/tmp/test.txt" "0644" 5 None).
  reflexivity.
Defined.

(** ** The name in the header line *)

Lemma has_char_of_list (c : ascii) (l : list ascii) :
  has_char c (string_of_list_ascii l) = existsb (fun a => Ascii.eqb a c) l.
Proof.
  induction l as [|a l IH]; cbn; [reflexivity | now rewrite IH].
Qed.

Lemma has_char_to_list (c : ascii) (s : string) :
  has_char c s = existsb (fun a => Ascii.eqb a c) (list_ascii_of_string s).
Proof.
  induction s as [|a s IH]; cbn; [reflexivity | now rewrite IH].
Qed.

Lemma existsb_rev_eq {A : Type} (f : A -> bool) (l : list A) :
  existsb f (rev l) = existsb f l.
Proof.
  induction l as [|a l IH]; cbn; [reflexivity|].
  rewrite existsb_app, IH. cbn. rewrite orb_false_r. apply orb_comm.
Qed.

Lemma until_slash_no_slash (l : list ascii) :
  existsb (fun a => Ascii.eqb a SLASH) (until_slash l) = false.
Proof.
  induction l as [|a l IH]; cbn [until_slash]; [reflexivity|].
  destruct (Ascii.eqb a SLASH) eqn:Ha; [reflexivity|].
  cbn [existsb]. now rewrite Ha, IH.
Qed.

Lemma until_slash_id (l : list ascii) :
  existsb (fun a => Ascii.eqb a SLASH) l = false -> until_slash l = l.
Proof.
  induction l as [|a l IH]; cbn [until_slash existsb]; [reflexivity|].
  intros H. apply orb_false_iff in H as [Ha Hl].
  now rewrite Ha, IH.
Qed.

Lemma strip_slashes_id (l : list ascii) :
  existsb (fun a => Ascii.eqb a SLASH) l = false -> strip_slashes l = l.
Proof.
  destruct l as [|a l]; cbn [strip_slashes existsb]; [reflexivity|].
  intros H. apply orb_false_iff in H as [Ha _]. now rewrite Ha.
Qed.

(** X12. The name an upload puts in its header line, [path.Base] of the
    remote path, is never empty; it holds a slash only when it is the
    single slash that stands for a path of slashes; and a path that is
    already a plain name is kept as it is. *)
Theorem header_name_is_a_base_name (path : string) :
  Base path <> "" /\
  (has_char SLASH (Base path) = true -> Base path = "/") /\
  (path <> "" -> has_char SLASH path = false -> Base path = path).
Proof.
  split; [|split].
  - unfold Base. destruct path as [|a path]; [discriminate|].
    destruct (until_slash _) as [|c e] eqn:He; [discriminate|].
    destruct (rev (c :: e)) as [|c' e'] eqn:Hr; [|discriminate].
    apply (f_equal (@List.length ascii)) in Hr.
    rewrite length_rev in Hr. discriminate Hr.
  - unfold Base. destruct path as [|a path]; [discriminate|].
    pose proof (until_slash_no_slash
                  (strip_slashes (rev (list_ascii_of_string (String a path)))))
      as Hno.
    destruct (until_slash _) as [|c e]; [reflexivity|].
    rewrite has_char_of_list, existsb_rev_eq, Hno. discriminate.
  - intros Hne Hno. unfold Base.
    destruct path as [|a path]; [now elim Hne|].
    rewrite has_char_to_list in Hno.
    rewrite strip_slashes_id by now rewrite existsb_rev_eq.
    rewrite until_slash_id by now rewrite existsb_rev_eq.
    destruct (rev (list_ascii_of_string (String a path))) as [|c e] eqn:Hr.
    + apply (f_equal (@List.length ascii)) in Hr.
      rewrite length_rev in Hr. discriminate Hr.
    + rewrite <- Hr, rev_involutive.
      apply string_of_list_ascii_of_string.
Qed.

Lemma header_name_is_a_base_name_witness :
  Base "///" = "/" /\ Base "test.txt" = "test.txt".
Proof.
  split.
  - apply (proj1 (proj2 (header_name_is_a_base_name "///"))). reflexivity.
  - apply (proj2 (proj2 (header_name_is_a_base_name "test.txt"))).
    + discriminate.
    + reflexivity.
Defined.

(** ** Uploads that measure the source themselves *)

(** X13. [CopyFile] always declares what it sends: after the header is
    acknowledged, the bytes written as the body are the bytes read from
    the source, and the size in the header line is their count. *)
Theorem copy_file_declares_what_it_sends (cd : Codec) (a : Client)
  (tl : list signal) (data remotePath permissions : string)
  (session : Session) (stdout : Reader) (w : Writer) (res : Response)
  (rest : Reader) :
  NewSession a = Ok session ->
  StdoutPipe session = Ok stdout ->
  StdinPipe session = Ok w ->
  Start_err session = None ->
  w_room w = None ->
  ParseResponse cd stdout = Ok (res, rest) ->
  IsFailure cd res = false ->
  stdin_writes
    (trace_of (CopyFile cd a tl (mkReader data None) remotePath permissions))
  = [header permissions (Z.of_nat (String.length data)) (Base remotePath);
     data; nul].
Proof.
  intros Hs Ho Hi Hst Hroom Hres Hok.
  unfold CopyFile, CopyFilePassThru.
  cbn [ReadAll r_err r_data trace_of stdin_writes].
  unfold CopyPassThru. rewrite Hs, Ho, Hi, Hst. cbn [apply_passThru].
  destruct (upload_unit_streams cd (NewReader data) permissions
              (Z.of_nat (String.length data)) (Base remotePath)
              (mkPipes stdout w
                 [EvNewSession;
                  EvStart (mkCommand (RemoteBinary a) "-qt" remotePath)])
              res rest Hroom Hres Hok eq_refl) as (sends & ->).
  destruct (wait _ _ tl); reflexivity.
Qed.

Lemma copy_file_declares_what_it_sends_witness :
  stdin_writes
    (trace_of (CopyFile SpecCodec.codec
                 (scripted_client upload_script None)
                 [SigDone Protocol; SigDone ExitWaiter]
                 (mkReader "hello" None) "/tmp/test.txt" "0644"))
  = [header "0644" (Z.of_nat (String.length "hello")) (Base "/tmp/test.txt");
     "hello"; nul].
Proof.
  apply (copy_file_declares_what_it_sends SpecCodec.codec
           (scripted_client upload_script None)
           [SigDone Protocol; SigDone ExitWaiter] "hello" "/tmp/test.txt"
           "0644" (scripted_session upload_script None)
           (mkReader upload_script None)
           (mkWriter None (ErrTransport "write on closed pipe"))
           (mkResponse NUL "") (mkReader nul None)
           eq_refl eq_refl eq_refl eq_refl eq_refl eq_refl eq_refl).
Defined.

(** X14. [CopyFromFilePassThru] does nothing when [Stat] fails: it returns
    the wrapped error with no session created. When [Stat] succeeds, the
    header line declares the size [Stat] reported and the body is every
    byte that reading the file delivers, whether or not the two agree. *)
Theorem copy_from_file_declares_stat_size (cd : Codec) (a : Client)
  (tl : list signal) (file : File) (remotePath permissions : string)
  (passThru : option PassThru) :
  (forall e,
      Stat file = Err e ->
      CopyFromFilePassThru cd a tl file remotePath permissions passThru
      = mkOutcome (Returns (Some (ErrWrap stat_error e))) []) /\
  (forall size session stdout w res rest,
      Stat file = Ok size ->
      NewSession a = Ok session ->
      StdoutPipe session = Ok stdout ->
      StdinPipe session = Ok w ->
      Start_err session = None ->
      w_room w = None ->
      ParseResponse cd stdout = Ok (res, rest) ->
      IsFailure cd res = false ->
      r_err (apply_passThru passThru (f_contents file) size) = None ->
      stdin_writes
        (trace_of (CopyFromFilePassThru cd a tl file remotePath permissions
                     passThru))
      = [header permissions size (Base remotePath);
         r_data (apply_passThru passThru (f_contents file) size); nul]).
Proof.
  split.
  - intros e He. unfold CopyFromFilePassThru. now rewrite He.
  - intros size session stdout w res rest Hstat Hs Ho Hi Hst Hroom Hres Hok
      Heof.
    unfold CopyFromFilePassThru. rewrite Hstat.
    unfold CopyPassThru. rewrite Hs, Ho, Hi, Hst.
    destruct (upload_unit_streams cd
                (apply_passThru passThru (f_contents file) size) permissions
                size (Base remotePath)
                (mkPipes stdout w
                   [EvNewSession;
                    EvStart (mkCommand (RemoteBinary a) "-qt" remotePath)])
                res rest Hroom Hres Hok Heof) as (sends & ->).
    destruct (wait _ _ tl); reflexivity.
Qed.

Lemma copy_from_file_declares_stat_size_witness :
  CopyFromFilePassThru SpecCodec.codec (scripted_client upload_script None)
    [SigDone Protocol; SigDone ExitWaiter]
    (mkFile (Err (ErrTransport "stat: bad file descriptor")) (NewReader ""))
    "/tmp/test.txt" "0644" None
  = mkOutcome
      (Returns (Some (ErrWrap stat_error
                        (ErrTransport "stat: bad file descriptor")))) [] /\
  stdin_writes
    (trace_of (CopyFromFilePassThru SpecCodec.codec
                 (scripted_client upload_script None)
                 [SigDone Protocol; SigDone ExitWaiter]
                 (mkFile (Ok 3) (NewReader "hello"))
                 "/tmp/test.txt" "0644" None))
  = [header "0644" 3 (Base "/tmp/test.txt");
     r_data (apply_passThru None (NewReader "hello") 3); nul].
Proof.
  split.
  - apply (proj1 (copy_from_file_declares_stat_size SpecCodec.codec
                    (scripted_client upload_script None)
                    [SigDone Protocol; SigDone ExitWaiter]
                    (mkFile (Err (ErrTransport "stat: bad file descriptor"))
                            (NewReader ""))
                    "/tmp/test.txt" "0644" None)).
    reflexivity.
  - apply (proj2 (copy_from_file_declares_stat_size SpecCodec.codec
                    (scripted_client upload_script None)
                    [SigDone Protocol; SigDone ExitWaiter]
                    (mkFile (Ok 3) (NewReader "hello"))
                    "/tmp/test.txt" "0644" None)
             3 (scripted_session upload_script None)
             (mkReader upload_script None)
             (mkWriter None (ErrTransport "write on closed pipe"))
             (mkResponse NUL "") (mkReader nul None)
             eq_refl eq_refl eq_refl eq_refl eq_refl eq_refl eq_refl eq_refl
             eq_refl).
Defined.

(** ** Downloads *)

Lemma plain_download_acks_after_body_witness :
  exists session out inp p infos,
    NewSession (scripted_client download_script None) = Ok session /\
    StdoutPipe session = Ok out /\
    StdinPipe session = Ok inp /\
    download_handshake SpecCodec.codec session
      (mkCommand (RemoteBinary (scripted_client download_script None)) "-f"
                 "test.txt")
      None (mkPipes out inp []) = (p, inr infos) /\
    5%nat = Z.to_nat (Size infos).
Proof.
  apply (plain_download_acks_after_body SpecCodec.codec
           (scripted_client download_script None) [SigDone Protocol]
           open_sink "test.txt" None 5%nat).
  reflexivity.
Defined.

(** X17. A download whose header response is flagged as a failure ends
    with an error carrying the peer's message, in the plain and in the
    progress variant alike: one ack has been written, nothing has reached
    the destination, and the value received from [errCh] is the error
    sent explicitly, not the nil that the deferred send adds. *)
Theorem download_reports_flagged_failure (cd : Codec) (a : Client)
  (tl : list signal) (w : Writer) (remotePath : string)
  (passThru : option PassThru) (prog : Program) (sched : list bool)
  (session : Session) (out rest : Reader) (inp : Writer) (res : Response)
  (order : list unit_id) :
  NewSession a = Ok session ->
  StdoutPipe session = Ok out ->
  StdinPipe session = Ok inp ->
  Start_err session = None ->
  w_room inp = None ->
  ParseResponse cd out = Ok (res, rest) ->
  IsFailure cd res = true ->
  wait [Protocol] (with_client_timeout a caller_ctx) tl = WaitNil order ->
  let ended :=
    mkOutcome (Returns (Some (ErrNew (GetMessage cd res))))
      [EvNewSession; EvStart (mkCommand (RemoteBinary a) "-f" remotePath);
       EvStdin nul; EvStdinClose; EvSessionClose] in
  CopyFromRemotePassThru cd a tl w remotePath passThru = ended /\
  CopyFromRemoteProgressPassThru cd a tl prog sched w remotePath passThru
  = ended.
Proof.
  intros Hs Ho Hi Hst Hroom Hres Hfail Hw ended. subst ended.
  set (cmd := mkCommand (RemoteBinary a) "-f" remotePath).
  assert (Hh : download_handshake cd session cmd passThru (mkPipes out inp [])
               = (mkPipes rest inp [EvStart cmd; EvStdin nul],
                  inl (mkAbort (ErrNew (GetMessage cd res)) None))).
  { unfold download_handshake, bind, start. rewrite Hst.
    unfold emit, Ack. cbn [p_out p_in p_trace app].
    rewrite write_in_unbounded by exact Hroom.
    unfold parse_response. cbn [p_out p_in p_trace app].
    now rewrite Hres, Hfail. }
  split.
  - unfold CopyFromRemotePassThru, download_call. rewrite Hs.
    unfold download_unit. rewrite Ho, Hi.
    unfold download_protocol. unfold bind at 1. fold cmd. rewrite Hh, Hw.
    reflexivity.
  - unfold CopyFromRemoteProgressPassThru. fold cmd.
    exact (progress_call_handshake_abort a tl
             (fun s => download_handshake cd s cmd passThru)
             prog sched w session out inp _ _ order Hs Ho Hi Hh Hw).
Qed.

Lemma download_reports_flagged_failure_witness :
  CopyFromRemotePassThru SpecCodec.codec
    (scripted_client refusal_script None) [SigDone Protocol] open_sink
    "test.txt" None
  = mkOutcome (Returns (Some (ErrNew "no such file")))
      [EvNewSession; EvStart (mkCommand "scp" "-f" "test.txt");
       EvStdin nul; EvStdinClose; EvSessionClose] /\
  CopyFromRemoteProgressPassThru SpecCodec.codec
    (scripted_client refusal_script None) [SigDone Protocol]
    (mkProgram None) [] open_sink "test.txt" None
  = mkOutcome (Returns (Some (ErrNew "no such file")))
      [EvNewSession; EvStart (mkCommand "scp" "-f" "test.txt");
       EvStdin nul; EvStdinClose; EvSessionClose].
Proof.
  apply (download_reports_flagged_failure SpecCodec.codec
           (scripted_client refusal_script None) [SigDone Protocol] open_sink
           "test.txt" None (mkProgram None) []
           (scripted_session refusal_script None)
           (mkReader refusal_script None) (mkReader "" None)
           (mkWriter None (ErrTransport "write on closed pipe"))
           (mkResponse "002" "no such file") [Protocol]
           eq_refl eq_refl eq_refl eq_refl eq_refl eq_refl eq_refl eq_refl).
Defined.

(** A goroutine that never gets to [wg.Done()] leaves [wait] blocked
    until the context fires. *)
Lemma wait_never_done (ctx : Context) (tl : list signal) :
  forall order,
    match wait_from [Protocol] ctx (never_done Protocol tl) order with
    | WaitNil _ => False
    | WaitBlocked => True
    | WaitErr e =>
        In (SigCancel e) tl \/
        (e = ErrDeadlineExceeded /\ timer_armed ctx = true /\ In SigTimer tl)
    end.
Proof.
  induction tl as [|s tl IH]; intros order; [exact I|].
  assert (Hstep : forall order',
             match wait_from [Protocol] ctx (never_done Protocol tl) order' with
             | WaitNil _ => False
             | WaitBlocked => True
             | WaitErr e =>
                 In (SigCancel e) (s :: tl) \/
                 (e = ErrDeadlineExceeded /\ timer_armed ctx = true /\
                  In SigTimer (s :: tl))
             end).
  { intros order'. specialize (IH order').
    destruct (wait_from [Protocol] ctx (never_done Protocol tl) order');
      [exact IH | | exact I].
    destruct IH as [H | (H1 & H2 & H3)]; [left | right; repeat split];
      try assumption; now right. }
  destruct s as [[|]|e'| |[|]];
    cbn [never_done filter unit_eqb negb wait_from existsb orb];
    fold (never_done Protocol tl); try apply Hstep.
  - left. now left.
  - destruct (timer_armed ctx) eqn:Harmed; [|apply Hstep].
    right. repeat split. now left.
Qed.

(** X18. In a progress download, an error of the display loop makes the
    goroutine call [os.Exit(1)] once the final ack is written, whatever
    the transfer did and whatever the remote command's exit status is. The
    goroutine never calls [wg.Done()]: the call does not return nil; it
    ends the process with status 1, unless its context fires before that,
    and then it returns the context's error. *)
Theorem display_failure_exits_the_process (cd : Codec) (a : Client)
  (tl : list signal) (w : Writer) (remotePath : string)
  (passThru : option PassThru) (prog : Program) (sched : list bool)
  (session : Session) (out : Reader) (inp : Writer) (p : Pipes)
  (infos : FileInfos) (e : error) :
  NewSession a = Ok session ->
  StdoutPipe session = Ok out ->
  StdinPipe session = Ok inp ->
  download_handshake cd session (mkCommand (RemoteBinary a) "-f" remotePath)
    passThru (mkPipes out inp []) = (p, inr infos) ->
  accepts (p_in p) nul = true ->
  Run prog = Some e ->
  let ctx := with_client_timeout a caller_ctx in
  let call :=
    CopyFromRemoteProgressPassThru cd a tl prog sched w remotePath passThru in
  ((forall e', ~ In (SigCancel e') tl) ->
   (timer_armed ctx = true -> ~ In SigTimer tl) ->
   result_of call = Exits 1) /\
  (result_of call = Exits 1 \/
   exists e',
     result_of call = Returns (Some e') /\
     (In (SigCancel e') tl \/
      (e' = ErrDeadlineExceeded /\ timer_armed ctx = true /\
       In SigTimer tl))).
Proof.
  intros Hs Ho Hi Hh Hacc Hrun ctx call.
  assert (Hcall : result_of call
                  = match wait [Protocol] ctx (never_done Protocol tl) with
                    | WaitErr e' => Returns (Some e')
                    | _ => Exits 1
                    end).
  { unfold call, CopyFromRemoteProgressPassThru, download_call. rewrite Hs.
    unfold progress_unit. rewrite Ho, Hi, Hh.
    unfold progress_tail, bind, Ack.
    destruct (write_in_accepts (mkPipes (p_out p) (p_in p) []) nul Hacc)
      as (w' & Hwr).
    rewrite Hwr, Hrun. cbn [ret]. fold ctx.
    destruct (wait [Protocol] ctx (never_done Protocol tl)); reflexivity. }
  rewrite Hcall. unfold wait.
  pose proof (wait_never_done ctx tl []) as Hw.
  destruct (wait_from [Protocol] ctx (never_done Protocol tl) [])
    as [order|e'|]; [now elim Hw | |].
  - split.
    + intros Hnc Hnt. exfalso.
      destruct Hw as [H | (_ & H1 & H2)];
        [exact (Hnc e' H) | exact (Hnt H1 H2)].
    + right. exists e'. now split.
  - split; [reflexivity | now left].
Qed.

Lemma display_failure_exits_the_process_witness :
  result_of (CopyFromRemoteProgressPassThru SpecCodec.codec
               (scripted_client download_script None) []
               (mkProgram (Some (ErrTransport "could not open a TTY")))
               [] open_sink "test.txt" None)
  = Exits 1.
Proof.
  apply (proj1 (display_failure_exits_the_process SpecCodec.codec
           (scripted_client download_script None) []
           open_sink "test.txt" None
           (mkProgram (Some (ErrTransport "could not open a TTY"))) []
           (scripted_session download_script None)
           (mkReader download_script None)
           (mkWriter None (ErrTransport "write on closed pipe"))
           (mkPipes (mkReader "hello" None)
              (mkWriter None (ErrTransport "write on closed pipe"))
              [EvStart (mkCommand "scp" "-f" "test.txt");
               EvStdin nul; EvStdin nul])
           (mkFileInfos 420 5 "test.txt" None None)
           (ErrTransport "could not open a TTY")
           eq_refl eq_refl eq_refl eq_refl eq_refl eq_refl)).
  - intros e' [].
  - intros _ [].
Defined.

(** ** The progress decorator, further *)

Lemma last_map {A B : Type} (f : A -> B) (l : list A) (d : A) :
  last (map f l) (f d) = f (last l d).
Proof.
  induction l as [|a l IH]; [reflexivity|].
  destruct l as [|b l]; [reflexivity|]. exact IH.
Qed.

Lemma running_counts_bounds (chunks : list string) :
  forall pw,
    0 <= downloaded pw ->
    downloaded pw + chunk_bytes chunks < 2 ^ 63 ->
    Forall (fun d => downloaded pw <= d <= downloaded pw + chunk_bytes chunks)
           (running_counts pw chunks) /\
    (chunks <> [] ->
     last (running_counts pw chunks) 0 = downloaded pw + chunk_bytes chunks).
Proof.
  induction chunks as [|c cs IH]; intros pw Hd Hsum.
  - split; [constructor | intros H; now elim H].
  - rewrite chunk_bytes_cons in *.
    pose proof (chunk_bytes_nonneg cs) as Hcs.
    destruct (progressWriter_Write_fields pw c) as (_ & _ & Hdl).
    rewrite wrap_int_small in Hdl by lia.
    cbn [running_counts].
    set (pw1 := fst (progressWriter_Write pw c)) in *.
    destruct (IH pw1) as (Hall & Hlast); try lia.
    split.
    + constructor; [lia|].
      eapply Forall_impl; [|exact Hall]. cbn beta. intros d Hdd. lia.
    + intros _. destruct cs as [|c' cs].
      * cbn [running_counts last chunk_bytes fold_right]. lia.
      * change (last (downloaded pw1 :: running_counts pw1 (c' :: cs)) 0)
          with (last (running_counts pw1 (c' :: cs)) 0).
        rewrite Hlast by discriminate. lia.
Qed.

(** X15. While the bytes observed stay within a known positive total, every
    fraction the callback receives lies between the starting fraction and
    one, over the same total; and when the chunks add up to the total the
    last fraction reported is exactly total over total. *)
Theorem progress_fractions_end_at_one (pw : progressWriter)
  (chunks : list string) :
  0 < total pw ->
  onProgress pw = true ->
  0 <= downloaded pw ->
  downloaded pw + chunk_bytes chunks <= total pw ->
  total pw < 2 ^ 63 ->
  Forall (fun c => snd c = total pw /\ downloaded pw <= fst c <= total pw)
         (snd (progressWriter_Writes pw chunks)) /\
  (chunks <> [] ->
   downloaded pw + chunk_bytes chunks = total pw ->
   last (snd (progressWriter_Writes pw chunks)) (0, total pw)
   = (total pw, total pw)).
Proof.
  intros Ht Hon Hd Hsum Hmax.
  destruct (progress_known_total pw chunks Ht Hon Hd) as (_ & Hcalls & _);
    [lia|].
  destruct (running_counts_bounds chunks pw Hd) as (Hall & Hlast); [lia|].
  rewrite Hcalls. split.
  - apply Forall_map. eapply Forall_impl; [|exact Hall].
    cbn. intros d Hdd. split; [reflexivity | lia].
  - intros Hne Heq.
    rewrite (last_map (fun d => (d, total pw))), (Hlast Hne), Heq.
    reflexivity.
Qed.

Lemma progress_fractions_end_at_one_witness :
  Forall (fun c => snd c = 5 /\ 0 <= fst c <= 5)
         (snd (progressWriter_Writes
                 (mkProgressWriter 5 0 open_sink (NewReader "hello") true)
                 ["he"; "ll"; "o"])) /\
  (["he"; "ll"; "o"] <> [] ->
   0 + chunk_bytes ["he"; "ll"; "o"] = 5 ->
   last (snd (progressWriter_Writes
                (mkProgressWriter 5 0 open_sink (NewReader "hello") true)
                ["he"; "ll"; "o"])) (0, 5)
   = (5, 5)).
Proof.
  apply (progress_fractions_end_at_one
           (mkProgressWriter 5 0 open_sink (NewReader "hello") true)
           ["he"; "ll"; "o"]).
  - reflexivity.
  - reflexivity.
  - discriminate.
  - discriminate.
  - reflexivity.
Defined.

(** ** The copier of the progress downloads *)

Lemma sink_bytes_app (t u : list event) :
  sink_bytes (t ++ u) = sink_bytes t ++ sink_bytes u.
Proof.
  induction t as [|ev t IH]; [reflexivity|].
  destruct ev; cbn [app sink_bytes]; rewrite IH; try reflexivity.
  now rewrite append_assoc.
Qed.

Lemma sink_bytes_progress (calls : list (Z * Z)) :
  sink_bytes (map (fun r => EvProgress (fst r) (snd r)) calls) = "".
Proof. induction calls as [|c calls IH]; [reflexivity | exact IH]. Qed.

Lemma length_take_min (n : nat) (s : string) :
  String.length (take n s) = Nat.min n (String.length s).
Proof.
  revert s. induction n as [|n IH]; intros [|a s]; cbn; try reflexivity.
  now rewrite IH.
Qed.

Lemma length_drop (n : nat) (s : string) :
  String.length (drop n s) = (String.length s - n)%nat.
Proof.
  revert s. induction n as [|n IH]; intros [|a s]; cbn; try reflexivity.
  apply IH.
Qed.

Lemma take_split (m n : nat) (s : string) :
  (m <= n)%nat -> take m s ++ take (n - m) (drop m s) = take n s.
Proof.
  revert n s. induction m as [|m IH]; intros n s Hmn.
  - cbn. now rewrite Nat.sub_0_r.
  - destruct n as [|n]; [lia|]. destruct s as [|a s]; cbn.
    + now destruct (n - m)%nat.
    + now rewrite IH by lia.
Qed.

Lemma take_length_take (m : nat) (s : string) :
  take (String.length (take m s)) s = take m s.
Proof.
  revert s. induction m as [|m IH]; intros [|a s]; cbn; try reflexivity.
  now rewrite IH.
Qed.

Lemma take_all (n : nat) (s : string) :
  (String.length s <= n)%nat -> take n s = s.
Proof.
  revert s. induction n as [|n IH]; intros [|a s] H; cbn in *;
    try reflexivity; try lia.
  now rewrite IH by lia.
Qed.

(** The copy loop moves the next [left] bytes of the reader, or all that
    are there, to a destination that takes them; chunk sizes do not
    matter. *)
Lemma tee_copy_delivers (fuel : nat) :
  forall k pw left,
    w_room (file pw) = None ->
    (left <= fuel)%nat ->
    sink_bytes (fst (tee_copy fuel k pw left))
    = take left (r_data (reader pw)) /\
    snd (tee_copy fuel k pw left)
    = if (String.length (r_data (reader pw)) <? left)%nat
      then Some (reader_end (reader pw)) else None.
Proof.
  induction fuel as [|fuel IH]; intros k pw left Hroom Hfuel.
  - assert (left = 0%nat) as -> by lia. cbn. now split.
  - cbn [tee_copy]. destruct left as [|left].
    + cbn. now split.
    + destruct (r_data (reader pw)) as [|a data] eqn:Hdata.
      * cbn. now split.
      * set (c := take (Nat.min (S k) (S left)) (String a data)).
        assert (Hc : (1 <= String.length c <= S left)%nat).
        { unfold c. rewrite length_take_min. cbn [String.length]. lia. }
        unfold progressWriter_Write. cbn [total downloaded file reader onProgress].
        rewrite (write_unbounded _ c Hroom).
        set (pw2 := mkProgressWriter _ _ _ _ _).
        specialize (IH k pw2 (S left - String.length c)%nat Hroom
                      ltac:(lia)).
        destruct (tee_copy fuel k pw2 (S left - String.length c))
          as [evs' r'] eqn:Ht.
        cbn [fst snd] in IH. destruct IH as (IHs & IHr).
        cbn [fst snd]. split.
        -- rewrite !sink_bytes_app, sink_bytes_progress, IHs.
           assert (Happ : forall s, s ++ "" = s).
           { induction s as [|x s IHs']; cbn;
               [reflexivity | now rewrite IHs']. }
           change (sink_bytes [EvSink c]) with (c ++ "").
           rewrite Happ.
           change ("" ++ c ++ take (S left - String.length c)
                                   (drop (String.length c) (String a data))
                   = take (S left) (String a data)).
           change ("" ++ ?x) with x.
           rewrite <- (take_split (String.length c) (S left) (String a data))
             by lia.
           f_equal. unfold c. symmetry. apply take_length_take.
        -- rewrite IHr. cbn [reader r_data r_err pw2].
           rewrite length_drop. unfold reader_end. cbn [r_err].
           destruct (String.length (String a data) <? S left)%nat eqn:H1;
             destruct (String.length (String a data) - String.length c
                       <? S left - String.length c)%nat eqn:H2;
             try reflexivity;
             apply Nat.ltb_lt in H1 || apply Nat.ltb_ge in H1;
             apply Nat.ltb_lt in H2 || apply Nat.ltb_ge in H2;
             unfold c in *; rewrite length_take_min in *;
             cbn [String.length] in *; lia.
Qed.

Lemma append_empty_r (s : string) : s ++ "" = s.
Proof. induction s as [|a s IH]; cbn; [reflexivity | now rewrite IH]. Qed.

(** X16. The copier of a progress download is transparent: whatever the
    size of the reads, a destination that takes every write receives the
    first [total] bytes of the stream, unchanged and in order, or all the
    stream holds when it is shorter; the copy fails exactly in that case,
    with the error that ended the stream. *)
Theorem progress_copy_is_transparent (k : nat) (pw : progressWriter) :
  w_room (file pw) = None ->
  sink_bytes (fst (progressWriter_Start k pw))
  = take (Z.to_nat (total pw)) (r_data (reader pw)) /\
  snd (progressWriter_Start k pw)
  = if (String.length (r_data (reader pw)) <? Z.to_nat (total pw))%nat
    then Some (reader_end (reader pw)) else None.
Proof.
  intros Hroom. unfold progressWriter_Start.
  destruct (tee_copy_delivers (Z.to_nat (total pw)) k pw
              (Z.to_nat (total pw)) Hroom (le_n _)) as (Hs & Hr).
  destruct (tee_copy _ k pw _) as [evs r]. cbn [fst snd] in *.
  destruct r as [e|]; cbn [fst snd]; split; try assumption.
  now rewrite sink_bytes_app, Hs, append_empty_r.
Qed.

Lemma progress_copy_is_transparent_witness :
  sink_bytes
    (fst (progressWriter_Start 1
            (mkProgressWriter 5 0 open_sink (NewReader "hello world") true)))
  = take (Z.to_nat 5) "hello world" /\
  snd (progressWriter_Start 1
         (mkProgressWriter 5 0 open_sink (NewReader "hello world") true))
  = if (String.length "hello world" <? Z.to_nat 5)%nat
    then Some (reader_end (NewReader "hello world")) else None.
Proof.
  apply (progress_copy_is_transparent 1
           (mkProgressWriter 5 0 open_sink (NewReader "hello world") true)).
  reflexivity.
Defined.

(** ** What a nil result of a plain download guarantees *)

(** X19. A plain download that returns nil has run the whole exchange: the
    header was parsed, the three acks were written and nothing else was
    sent to the peer, the destination received exactly the declared number
    of bytes, and the remote command exited without error. *)
Theorem plain_download_nil_means_complete (cd : Codec) (a : Client)
  (tl : list signal) (w : Writer) (remotePath : string)
  (passThru : option PassThru) :
  result_of (CopyFromRemotePassThru cd a tl w remotePath passThru)
  = Returns None ->
  exists session out inp p infos,
    NewSession a = Ok session /\
    StdoutPipe session = Ok out /\
    StdinPipe session = Ok inp /\
    Wait_err session = None /\
    download_handshake cd session (mkCommand (RemoteBinary a) "-f" remotePath)
      passThru (mkPipes out inp []) = (p, inr infos) /\
    stdin_writes
      (trace_of (CopyFromRemotePassThru cd a tl w remotePath passThru))
    = [nul; nul; nul] /\
    sink_bytes
      (trace_of (CopyFromRemotePassThru cd a tl w remotePath passThru))
    = take (Z.to_nat (Size infos)) (r_data (p_out p)) /\
    String.length
      (sink_bytes
         (trace_of (CopyFromRemotePassThru cd a tl w remotePath passThru)))
    = Z.to_nat (Size infos).
Proof.
  unfold CopyFromRemotePassThru.
  destruct (NewSession a) as [session|e] eqn:Hs;
    [|unfold download_call; rewrite Hs; discriminate].
  intros Hret.
  rewrite (download_call_returns_trace a tl _ session None Hs Hret).
  revert Hret.
  unfold download_call. rewrite Hs.
  unfold download_unit.
  destruct (StdoutPipe session) as [out|e] eqn:Ho.
  2:{ destruct (wait _ _ tl); discriminate. }
  destruct (StdinPipe session) as [inp|e] eqn:Hi.
  2:{ destruct (wait _ _ tl); discriminate. }
  unfold download_protocol. unfold bind at 1 2.
  destruct (download_handshake cd session _ passThru (mkPipes out inp []))
    as [p [ab|infos]] eqn:Hh.
  { destruct (wait _ _ tl); discriminate. }
  pose proof Hh as Hh'. revert Hh.
  unfold download_handshake, bind, start, Ack, write_in, parse_response,
    lift, emit, wrap_reader, fail, fail_message, ret, CopyN, check.
  cbn [p_in p_out p_trace app].
  destruct (Start_err session); [discriminate|].
  cbn [p_in p_out p_trace app].
  destruct (write inp nul) as [[acc1 w1] oe1] eqn:W1.
  destruct (write_nul_cases _ _ _ _ W1) as [[-> ->]|[Hne ->]].
  2:{ destruct oe1; [|congruence]. cbn [p_trace]. discriminate. }
  cbn [p_in p_out p_trace app].
  destruct (ParseResponse cd out) as [[res r']|e]; [|discriminate].
  cbn [p_in p_out p_trace app].
  destruct (IsFailure cd res); [discriminate|].
  destruct (ParseFileInfos cd res) as [i|e]; [|discriminate].
  cbn [p_in p_out p_trace app].
  destruct (write w1 nul) as [[acc2 w2] oe2] eqn:W2.
  destruct (write_nul_cases _ _ _ _ W2) as [[-> ->]|[Hne ->]].
  2:{ destruct oe2; [|congruence]. cbn [p_trace]. discriminate. }
  cbn [p_in p_out p_trace app].
  intros Heq; injection Heq; intros <- <-.
  cbn [p_in p_out p_trace app].
  destruct (write w _) as [[acc w'] oe] eqn:W.
  destruct oe as [e|].
  { destruct (wait _ _ tl); discriminate. }
  apply write_ok_all in W. subst acc.
  destruct (_ <? _)%nat eqn:Hlen.
  { destruct (wait _ _ tl); discriminate. }
  apply Nat.ltb_ge in Hlen.
  cbn [p_in p_out p_trace app].
  destruct (write w2 nul) as [[acc3 w3] oe3] eqn:W3.
  destruct (write_nul_cases _ _ _ _ W3) as [[-> ->]|[Hne ->]].
  2:{ destruct oe3; [|congruence]. destruct (wait _ _ tl); discriminate. }
  destruct (Wait_err session) as [e|] eqn:Hexit.
  { destruct (wait _ _ tl); discriminate. }
  intros _.
  exists session, out, inp. eexists. exists i.
  do 4 (split; [first [assumption | reflexivity]|]).
  split; [exact Hh'|].
  unfold ret. cbn [p_out p_trace fst app stdin_writes sink_bytes].
  rewrite append_empty_r.
  split; [reflexivity|]. split; [reflexivity|].
  now apply length_take.
Qed.

Lemma plain_download_nil_means_complete_witness :
  exists session out inp p infos,
    NewSession (scripted_client download_script None) = Ok session /\
    StdoutPipe session = Ok out /\
    StdinPipe session = Ok inp /\
    Wait_err session = None /\
    download_handshake SpecCodec.codec session
      (mkCommand (RemoteBinary (scripted_client download_script None)) "-f"
                 "test.txt")
      None (mkPipes out inp []) = (p, inr infos) /\
    stdin_writes
      (trace_of (CopyFromRemotePassThru SpecCodec.codec
                   (scripted_client download_script None) [SigDone Protocol]
                   open_sink "test.txt" None))
    = [nul; nul; nul] /\
    sink_bytes
      (trace_of (CopyFromRemotePassThru SpecCodec.codec
                   (scripted_client download_script None) [SigDone Protocol]
                   open_sink "test.txt" None))
    = take (Z.to_nat (Size infos)) (r_data (p_out p)) /\
    String.length
      (sink_bytes
         (trace_of (CopyFromRemotePassThru SpecCodec.codec
                      (scripted_client download_script None)
                      [SigDone Protocol] open_sink "test.txt" None)))
    = Z.to_nat (Size infos).
Proof.
  apply (plain_download_nil_means_complete SpecCodec.codec
           (scripted_client download_script None) [SigDone Protocol]
           open_sink "test.txt" None).
  reflexivity.
Defined.
